(** * SmartFoodSnap: the analysis service and the session state machine

    A shallow embedding of [src/services/geminiService.ts] (the Gemini
    orchestration: [retryWithBackoff], [analyzeFoodImage],
    [recalculateMacros], [analyzeFoodText]) and of [src/App.tsx] (the
    session state of the React component and its handlers).

    [geminiService.ts] holds several successive versions of the module one
    after the other.  [GeminiV1] embeds the first one (lines 1-223) and
    [GeminiV3] the third one (lines 426-710); [retryWithBackoff] is the
    same text in both and is embedded once. *)

From Stdlib Require Import String Ascii List ZArith QArith Qround Lqa Bool Lia.
Import ListNotations.
Open Scope nat_scope.
Open Scope string_scope.
Set Warnings "-register-all".

(* ------------------------------------------------------------------ *)
(** ** JavaScript string helpers *)

(** [s.includes(sub)] *)
Fixpoint includes (sub s : string) : bool :=
  if String.prefix sub s then true
  else match s with
       | EmptyString => false
       | String _ s' => includes sub s'
       end.

(** Strings are UTF-8 byte sequences. *)
Definition bytes (l : list nat) : string :=
  fold_right (fun n s => String (ascii_of_nat n) s) EmptyString l.

(** The UTF-8 encodings of the code points [String.prototype.trim]
    removes (ECMAScript WhiteSpace and LineTerminator): U+0009-U+000D,
    U+0020, U+00A0, U+1680, U+2000-U+200A, U+2028, U+2029, U+202F,
    U+205F, U+3000 and U+FEFF. *)
Definition js_ws : list string :=
  map (fun n => bytes [n]) [9; 10; 11; 12; 13; 32]%nat
  ++ [bytes [194; 160]; bytes [225; 154; 128]]%nat
  ++ map (fun n => bytes [226; 128; n]) (seq 128 11)%nat
  ++ [bytes [226; 128; 168]; bytes [226; 128; 169]; bytes [226; 128; 175];
      bytes [226; 129; 159]; bytes [227; 128; 128];
      bytes [239; 187; 191]]%nat.

Fixpoint str_drop (n : nat) (s : string) : string :=
  match n, s with
  | O, _ => s
  | S _, EmptyString => EmptyString
  | S n', String _ s' => str_drop n' s'
  end.

(** Remove one leading sequence of [ws], if [s] starts with one. *)
Fixpoint strip_one (ws : list string) (s : string) : option string :=
  match ws with
  | [] => None
  | w :: ws' =>
      if String.prefix w s then Some (str_drop (String.length w) s)
      else strip_one ws' s
  end.

Fixpoint trim_start_fuel (ws : list string) (fuel : nat) (s : string)
  : string :=
  match fuel with
  | O => s
  | S fuel' =>
      match strip_one ws s with
      | Some s' => trim_start_fuel ws fuel' s'
      | None => s
      end
  end.

Definition trim_start (ws : list string) (s : string) : string :=
  trim_start_fuel ws (String.length s) s.

Fixpoint rev_str (s : string) : string :=
  match s with
  | EmptyString => EmptyString
  | String c s' => rev_str s' ++ String c EmptyString
  end.

(** [s.trim()]: leading white space, then trailing white space (removed
    from the reversed bytes with the reversed encodings). *)
Definition trim (s : string) : string :=
  let s1 := trim_start js_ws s in
  rev_str (trim_start (map rev_str js_ws) (rev_str s1)).

(** The double quote character, used by the template literals. *)
Definition dq : string := String (ascii_of_nat 34) EmptyString.
Definition nl : string := String (ascii_of_nat 10) EmptyString.

(* ------------------------------------------------------------------ *)
(** ** Data model ([src/types.ts]) *)

(** JavaScript numbers of the payload are kept as rationals: the code
    never computes with them, it only passes them along. *)
Record MacroData := mkMacroData {
  calories : Q; protein : Q; fat : Q; carbs : Q }.

Record FoodItem := mkFoodItem {
  name : string; weightGrams : Q; macros : MacroData; confidence : Q }.

Record AnalysisResult := mkAnalysisResult {
  items : list FoodItem; total : MacroData; summary : string;
  modelUsed : option string }.

Inductive AppState :=
| IDLE | ANALYZING_IMAGE | RESULT_VIEW | PROCESSING_CORRECTION | ERROR.

(* ------------------------------------------------------------------ *)
(** ** Errors, requests and the Gemini SDK *)

(** A thrown JavaScript error object, as the handlers inspect it:
    [error.status] and [error.message] (both may be undefined). *)
Record JsErr := mkJsErr { status : option Z; message : option string }.

(** [new Error(msg)] *)
Definition new_Error (msg : string) : JsErr := mkJsErr None (Some msg).

Definition status_is (e : JsErr) (code : Z) : bool :=
  match status e with Some s => Z.eqb s code | None => false end.

(** [error.message?.includes(sub)] *)
Definition message_includes (e : JsErr) (sub : string) : bool :=
  match message e with Some m => includes sub m | None => false end.

(** The response schema ([Type.OBJECT], [Type.ARRAY], ...); the
    [description] strings are left out. *)
Inductive Schema :=
| SObject (properties : list (string * Schema)) (required : list string)
| SArray (of_items : Schema)
| SNumber
| SString.

Definition macroSchema : Schema :=
  SObject [("calories", SNumber); ("protein", SNumber); ("fat", SNumber);
           ("carbs", SNumber)]
          ["calories"; "protein"; "fat"; "carbs"].

Definition foodItemSchema : Schema :=
  SObject [("name", SString); ("weightGrams", SNumber);
           ("macros", macroSchema); ("confidence", SNumber)]
          ["name"; "weightGrams"; "macros"; "confidence"].

Definition analysisResponseSchema : Schema :=
  SObject [("items", SArray foodItemSchema); ("total", macroSchema);
           ("summary", SString)]
          ["items"; "total"; "summary"].

Inductive Part :=
| InlineData (data mimeType : string)
| TextPart (text : string).

(** [contents]: either [{ parts: [...] }] or a plain prompt string. *)
Inductive Contents :=
| CParts (parts : list Part)
| CString (s : string).

Record Config := mkConfig {
  responseMimeType : string; responseSchema : Schema }.

Record Request := mkRequest {
  model : string; contents : Contents; config : Config }.

(** The text of a response, seen through [JSON.parse]: either a payload
    that parses, or text that makes [JSON.parse] throw a [SyntaxError]
    with the given message. *)
Inductive Raw :=
| RawJson (r : AnalysisResult)
| RawBad (syntaxMessage : string).

(** What [ai.models.generateContent] does: it throws, or it resolves to a
    response whose [text] is [None] when undefined or empty. *)
Inductive Reply :=
| RThrow (e : JsErr)
| RText (text : option Raw).

Inductive Event :=
| Call (req : Request) (rep : Reply)
| Sleep (ms : Z).

(** The world the service runs in: the Gemini backend ([svc] answers the
    [n]-th call), [process.env.API_KEY], the trace of calls and
    [setTimeout] waits, and the JavaScript heap of result objects (a
    location is an index into [heap]). *)
Record World := mkWorld {
  svc : nat -> Request -> Reply;
  API_KEY : option string;
  next : nat;
  log : list Event;
  heap : list AnalysisResult }.

Definition loc := nat.

(* ------------------------------------------------------------------ *)
(** ** The promise monad: state passing with thrown errors *)

Inductive Res (A : Type) :=
| Ok (a : A)
| Thrown (e : JsErr).
Arguments Ok {A} a.
Arguments Thrown {A} e.

Definition M (A : Type) : Type := World -> Res A * World.

Definition ret {A} (a : A) : M A := fun w => (Ok a, w).

Definition bind {A B} (m : M A) (k : A -> M B) : M B :=
  fun w => match m w with
           | (Ok a, w') => k a w'
           | (Thrown e, w') => (Thrown e, w')
           end.

Definition throw {A} (e : JsErr) : M A := fun w => (Thrown e, w).

(** [try { m } catch (error) { h(error) }] *)
Definition try_catch {A} (m : M A) (h : JsErr -> M A) : M A :=
  fun w => match m w with
           | (Thrown e, w') => h e w'
           | r => r
           end.

Notation "x <- m ;; k" := (bind m (fun x => k))
  (at level 61, m at next level, right associativity).

Definition with_log (w : World) (l : list Event) : World :=
  mkWorld (svc w) (API_KEY w) (next w) l (heap w).

(** [await new Promise(resolve => setTimeout(resolve, ms))] *)
Definition sleep (ms : Z) : M unit :=
  fun w => (Ok tt, with_log w (log w ++ [Sleep ms])).

(** [await ai.models.generateContent(req)], resolving to [response.text] *)
Definition generateContent (req : Request) : M (option Raw) :=
  fun w =>
    let rep := svc w (next w) req in
    let w' := mkWorld (svc w) (API_KEY w) (S (next w))
                      (log w ++ [Call req rep]) (heap w) in
    match rep with
    | RThrow e => (Thrown e, w')
    | RText t => (Ok t, w')
    end.

(** [JSON.parse(text)]: a fresh object on the heap. *)
Definition JSON_parse (t : Raw) : M loc :=
  match t with
  | RawJson r => fun w =>
      (Ok (length (heap w)),
       mkWorld (svc w) (API_KEY w) (next w) (log w) (heap w ++ [r]))
  | RawBad m => throw (mkJsErr None (Some m))
  end.

Fixpoint set_nth {A} (l : list A) (n : nat) (f : A -> A) : list A :=
  match l, n with
  | [], _ => []
  | x :: l', O => f x :: l'
  | x :: l', S n' => x :: set_nth l' n' f
  end.

(** [result.modelUsed = name] on the object at [l]. *)
Definition set_modelUsed (l : loc) (nm : string) : M unit :=
  fun w =>
    (Ok tt, mkWorld (svc w) (API_KEY w) (next w) (log w)
              (set_nth (heap w) l (fun r =>
                 mkAnalysisResult (items r) (total r) (summary r) (Some nm)))).

(** [if (!apiKey)]: undefined and the empty string are falsy. *)
Definition apiKey_missing : M bool :=
  fun w => (Ok (match API_KEY w with
                | None => true
                | Some k => String.eqb k EmptyString
                end), w).

(** [const text = response.text; if (!text) throw new Error(msg);
     return JSON.parse(text)] *)
Definition parse_text (t : option Raw) (msg : string) : M loc :=
  match t with
  | None => throw (new_Error msg)
  | Some raw => JSON_parse raw
  end.

(* ------------------------------------------------------------------ *)
(** ** [retryWithBackoff] (lines 52-64, identical at 477-489) *)

(** [error.status === 429 || error.status === 503 ||
     error.message?.includes('429')] *)
Definition retry_signal (e : JsErr) : bool :=
  status_is e 429 || status_is e 503 || message_includes e "429".

Fixpoint retryWithBackoff {A} (fn : M A) (retries : nat) (delay : Z) : M A :=
  try_catch fn (fun error =>
    match retries with
    | S retries' =>
        if retry_signal error then
          (_ <- sleep delay ;; retryWithBackoff fn retries' (delay * 2)%Z)
        else throw error
    | O => throw error
    end).

(** The defaults [retries = 3, delay = 1000]. *)
Definition retryWithBackoff_default {A} (fn : M A) : M A :=
  retryWithBackoff fn 3 1000.

(* ------------------------------------------------------------------ *)
(** ** The session state of [App] ([src/App.tsx]) *)

(** The [useState] cells of the component (the Telegram flag apart). *)
Record SessionState := mkSession {
  appState : AppState;
  selectedImage : option string;
  analysisResult : option AnalysisResult;
  correctionText : string;
  errorMessage : option string;
  loadingMessage : string }.

Definition setAppState (v : AppState) (s : SessionState) : SessionState :=
  mkSession v (selectedImage s) (analysisResult s) (correctionText s)
            (errorMessage s) (loadingMessage s).
Definition setSelectedImage (v : option string) (s : SessionState) :=
  mkSession (appState s) v (analysisResult s) (correctionText s)
            (errorMessage s) (loadingMessage s).
Definition setAnalysisResult (v : option AnalysisResult) (s : SessionState) :=
  mkSession (appState s) (selectedImage s) v (correctionText s)
            (errorMessage s) (loadingMessage s).
Definition setCorrectionText (v : string) (s : SessionState) :=
  mkSession (appState s) (selectedImage s) (analysisResult s) v
            (errorMessage s) (loadingMessage s).
Definition setErrorMessage (v : option string) (s : SessionState) :=
  mkSession (appState s) (selectedImage s) (analysisResult s)
            (correctionText s) v (loadingMessage s).
Definition setLoadingMessage (v : string) (s : SessionState) :=
  mkSession (appState s) (selectedImage s) (analysisResult s)
            (correctionText s) (errorMessage s) v.

Definition initialSession : SessionState :=
  mkSession IDLE None None "" None "".

(** The calls a handler makes to the service module. *)
Inductive ServiceCall :=
| CallAnalyzeFoodImage (base64Data : option string) (mimeType : string)
| CallRecalculateMacros (current : AnalysisResult) (userCorrection : string).

(** [resetApp] (lines 31-37) *)
Definition resetApp (s : SessionState) : SessionState :=
  setErrorMessage None (setCorrectionText ""
    (setAnalysisResult None (setSelectedImage None (setAppState IDLE s)))).

(** [str.split(',')] *)
Fixpoint split_comma (s : string) : list string :=
  match s with
  | EmptyString => [EmptyString]
  | String c s' =>
      if Ascii.eqb c ","%char then EmptyString :: split_comma s'
      else match split_comma s' with
           | x :: xs => String c x :: xs
           | [] => [String c EmptyString]
           end
  end.

(** The selected file, through [FileReader.readAsDataURL]. *)
Record File := mkFile { file_type : string; dataURL : string }.

Definition msg_image_failed : string :=
  "Не удалось проанализировать изображение. Попробуйте другое фото.".
Definition msg_recalc_failed : string :=
  "Не удалось пересчитать данные. Попробуйте еще раз.".

(** [handleImageSelect] (lines 60-84), run to completion; the awaited
    [analyzeFoodImage] is the parameter [analyzeFoodImage]. *)
Definition handleImageSelect
  (analyzeFoodImage : option string -> string -> Res AnalysisResult)
  (file : File) (s : SessionState) : list ServiceCall * SessionState :=
  let s1 := setErrorMessage None
              (setLoadingMessage "Изучаю фото и распознаю продукты..."
                 (setAppState ANALYZING_IMAGE s)) in
  (* reader.onloadend *)
  let base64String := dataURL file in
  let s2 := setSelectedImage (Some base64String) s1 in
  let base64Data := nth_error (split_comma base64String) 1 in
  let mimeType := file_type file in
  ([CallAnalyzeFoodImage base64Data mimeType],
   match analyzeFoodImage base64Data mimeType with
   | Ok result => setAppState RESULT_VIEW (setAnalysisResult (Some result) s2)
   | Thrown _ => setAppState ERROR (setErrorMessage (Some msg_image_failed) s2)
   end).

(** [handleCorrectionSubmit] (lines 86-101), run to completion. *)
Definition handleCorrectionSubmit
  (recalculateMacros : AnalysisResult -> string -> Res AnalysisResult)
  (s : SessionState) : list ServiceCall * SessionState :=
  match analysisResult s with
  | Some current =>
      if String.eqb (trim (correctionText s)) "" then ([], s)
      else
        let s1 := setLoadingMessage "Пересчитываю КБЖУ с учетом правок..."
                    (setAppState PROCESSING_CORRECTION s) in
        ([CallRecalculateMacros current (correctionText s)],
         match recalculateMacros current (correctionText s) with
         | Ok newResult =>
             setAppState RESULT_VIEW
               (setCorrectionText "" (setAnalysisResult (Some newResult) s1))
         | Thrown _ =>
             setAppState RESULT_VIEW
               (setErrorMessage (Some msg_recalc_failed) s1)
         end)
  | None => ([], s)
  end.

(* ------------------------------------------------------------------ *)
(** ** Heap reads and rethrows *)

(** Reading the object a JavaScript reference points to.  A reference held
    by the code always points to an object; the [None] branch is never
    taken on the heaps the code builds. *)
Definition load (l : loc) : M AnalysisResult :=
  fun w => match nth_error (heap w) l with
           | Some r => (Ok r, w)
           | None => (Thrown (new_Error "dangling reference"), w)
           end.

(** [throw new Error(error.message || dflt)] *)
Definition rethrow_as_Error {A} (error : JsErr) (dflt : string) : M A :=
  match message error with
  | Some m => if String.eqb m "" then throw (new_Error dflt)
              else throw (new_Error m)
  | None => throw (new_Error dflt)
  end.

(* ------------------------------------------------------------------ *)
(** ** First version of [geminiService.ts] (lines 1-223) *)

Module GeminiV1.

Definition promptText : string :=
  "Проанализируй это изображение еды. Если видишь упаковки или этикетки (например, 'Zero Sugar', 'Diet', '0 калорий'), обязательно учитывай это при расчете. Определи каждое блюдо или ингредиент, оцени их вес в граммах и рассчитай КБЖУ (Калории, Белки, Жиры, Углеводы). Укажи степень уверенности (confidence) для каждого продукта от 0.0 до 1.0. Будь максимально точным. Верни результат в формате JSON. Используй русский язык для названий и описания.".

Definition contentPart (base64Image mimeType : string) : Contents :=
  CParts [InlineData base64Image mimeType; TextPart promptText].

Definition configPart : Config :=
  mkConfig "application/json" analysisResponseSchema.

Definition proModel : string := "gemini-3-pro-preview".
Definition flashModel : string := "gemini-2.5-flash".

Definition msg_no_response : string := "No response from Gemini".
Definition msg_no_response_flash : string :=
  "No response from Gemini (Flash fallback)".

(** [error.status === 403 || error.status === 404 ||
     error.message?.includes('403') || error.message?.includes('404') ||
     error.message?.includes('PERMISSION_DENIED')] (line 116) *)
Definition fallback_signal (e : JsErr) : bool :=
  status_is e 403 || status_is e 404 || message_includes e "403"
  || message_includes e "404" || message_includes e "PERMISSION_DENIED".

(** The closure given to [retryWithBackoff] (lines 97-134). *)
Definition attempt (base64Image mimeType : string) : M loc :=
  try_catch
    (text <- generateContent
               (mkRequest proModel (contentPart base64Image mimeType)
                          configPart) ;;
     parse_text text msg_no_response)
    (fun error =>
       if fallback_signal error then
         (text <- generateContent
                    (mkRequest flashModel (contentPart base64Image mimeType)
                               configPart) ;;
          parse_text text msg_no_response_flash)
       else throw error).

(** [analyzeFoodImage] (lines 71-135) *)
Definition analyzeFoodImage (base64Image mimeType : string) : M loc :=
  missing <- apiKey_missing ;;
  if missing
  then throw (new_Error "API Key is missing in the application configuration.")
  else retryWithBackoff_default (attempt base64Image mimeType).

(** The template literal of lines 191-203, with the serialized analysis
    and the correction spliced in. *)
Definition recalc_prompt (serialized userCorrection : string) : string :=
  EmptyString
  ++ nl ++ "        Исходные данные анализа еды (JSON):"
  ++ nl ++ ("        " ++ serialized)
  ++ nl ++ EmptyString
  ++ nl ++ "        Корректировка от пользователя:"
  ++ nl ++ ("        " ++ dq ++ userCorrection ++ dq)
  ++ nl ++ EmptyString
  ++ nl ++ "        Задание:"
  ++ nl ++ "        1. Пойми, что именно пользователь хочет изменить (вес, название, удалить блюдо, добавить блюдо)."
  ++ nl ++ "        2. Пересчитай КБЖУ для измененных позиций и итоговую сумму."
  ++ nl ++ "        3. Верни обновленный JSON объект в том же формате, включая поле confidence (для новых блюд оцени уверенность сам, для старых оставь или измени если нужно)."
  ++ nl ++ "        4. В поле 'summary' напиши, что было изменено."
  ++ nl ++ "      ".

Section Recalculate.

(** [JSON.stringify] on analysis objects (a JavaScript built-in). *)
Variable JSON_stringify : AnalysisResult -> string.

(** The closure given to [retryWithBackoff] (lines 189-222). *)
Definition recalc_attempt (currentAnalysis : loc) (userCorrection : string)
  : M loc :=
  try_catch
    (current <- load currentAnalysis ;;
     let prompt := recalc_prompt (JSON_stringify current) userCorrection in
     text <- generateContent
               (mkRequest flashModel (CString prompt)
                  (mkConfig "application/json" analysisResponseSchema)) ;;
     parse_text text msg_no_response)
    (fun error => rethrow_as_Error error "Recalculation failed").

(** [recalculateMacros] (lines 181-223) *)
Definition recalculateMacros (currentAnalysis : loc) (userCorrection : string)
  : M loc :=
  missing <- apiKey_missing ;;
  if missing then throw (new_Error "API Key is missing.")
  else retryWithBackoff_default (recalc_attempt currentAnalysis userCorrection).

End Recalculate.

End GeminiV1.

(* ------------------------------------------------------------------ *)
(** ** Third version of [geminiService.ts] (lines 426-710) *)

Module GeminiV3.

(** The template literal of lines 574-580. *)
Definition text_prompt (text : string) : string :=
  EmptyString
  ++ nl ++ ("    Проанализируй этот текст: " ++ dq ++ text ++ dq ++ ".")
  ++ nl ++ "    Пользователь описывает, что он съел."
  ++ nl ++ "    Определи список блюд/продуктов, их вес (если не указан, оцени среднюю порцию) и рассчитай КБЖУ."
  ++ nl ++ "    Верни результат в формате JSON, используя ту же структуру, что и для анализа фото."
  ++ nl ++ "    Используй русский язык."
  ++ nl ++ "  ".

Definition configPart : Config :=
  mkConfig "application/json" analysisResponseSchema.

(** The closure given to [retryWithBackoff] (lines 587-601). *)
Definition text_attempt (text : string) : M loc :=
  txt <- generateContent
           (mkRequest "gemini-2.5-flash" (CString (text_prompt text))
                      configPart) ;;
  result <- parse_text txt "No response from Gemini" ;;
  _ <- set_modelUsed result "Gemini 2.5 Flash (Text)" ;;
  ret result.

(** [analyzeFoodText] (lines 569-602) *)
Definition analyzeFoodText (text : string) : M loc :=
  missing <- apiKey_missing ;;
  if missing then throw (new_Error "API Key is missing.")
  else retryWithBackoff_default (text_attempt text).


(** [analyzeFoodImage] of this version (lines 496-565): the code of the
    first version, except that each tier sets [result.modelUsed] on the
    parsed object before returning it. *)
Definition attempt (base64Image mimeType : string) : M loc :=
  try_catch
    (text <- generateContent
               (mkRequest GeminiV1.proModel
                  (GeminiV1.contentPart base64Image mimeType)
                  GeminiV1.configPart) ;;
     result <- parse_text text GeminiV1.msg_no_response ;;
     _ <- set_modelUsed result "Gemini 3.0 Pro" ;;
     ret result)
    (fun error =>
       if GeminiV1.fallback_signal error then
         (text <- generateContent
                    (mkRequest GeminiV1.flashModel
                       (GeminiV1.contentPart base64Image mimeType)
                       GeminiV1.configPart) ;;
          result <- parse_text text GeminiV1.msg_no_response_flash ;;
          _ <- set_modelUsed result "Gemini 2.5 Flash" ;;
          ret result)
       else throw error).

Definition analyzeFoodImage (base64Image mimeType : string) : M loc :=
  missing <- apiKey_missing ;;
  if missing
  then throw (new_Error "API Key is missing in the application configuration.")
  else retryWithBackoff_default (attempt base64Image mimeType).

(** The template literal of lines 656-668. *)
Definition recalc_prompt (serialized userCorrection : string) : string :=
  EmptyString
  ++ nl ++ "    Исходные данные анализа еды (JSON):"
  ++ nl ++ ("    " ++ serialized)
  ++ nl ++ EmptyString
  ++ nl ++ "    Корректировка от пользователя:"
  ++ nl ++ ("    " ++ dq ++ userCorrection ++ dq)
  ++ nl ++ EmptyString
  ++ nl ++ "    Задание:"
  ++ nl ++ "    1. Пойми, что именно пользователь хочет изменить (вес, название, удалить блюдо, добавить блюдо)."
  ++ nl ++ "    2. Пересчитай КБЖУ для измененных позиций и итоговую сумму."
  ++ nl ++ "    3. Верни обновленный JSON объект в том же формате, включая поле confidence (для новых блюд оцени уверенность сам, для старых оставь или измени если нужно)."
  ++ nl ++ "    4. В поле 'summary' напиши, что было изменено."
  ++ nl ++ "  ".

(** [error.status === 403 || error.status === 404 ||
     error.message?.includes('403') || error.message?.includes('404')]
    (line 693): unlike [analyzeFoodImage], no [PERMISSION_DENIED] test. *)
Definition recalc_fallback_signal (e : JsErr) : bool :=
  status_is e 403 || status_is e 404 || message_includes e "403"
  || message_includes e "404".

(** The closure given to [retryWithBackoff] (lines 675-709). *)
Definition recalc_attempt (prompt : string) : M loc :=
  try_catch
    (text <- generateContent
               (mkRequest GeminiV1.proModel (CString prompt) configPart) ;;
     result <- parse_text text "No response from Gemini" ;;
     _ <- set_modelUsed result "Gemini 3.0 Pro" ;;
     ret result)
    (fun error =>
       if recalc_fallback_signal error then
         (text <- generateContent
                    (mkRequest GeminiV1.flashModel (CString prompt) configPart) ;;
          result <- parse_text text "No response from Gemini" ;;
          _ <- set_modelUsed result "Gemini 2.5 Flash" ;;
          ret result)
       else throw error).

Section Recalculate.

Variable JSON_stringify : AnalysisResult -> string.

(** [recalculateMacros] (lines 648-711): the prompt, with
    [JSON.stringify(currentAnalysis)], is built once, before the retried
    closure. *)
Definition recalculateMacros (currentAnalysis : loc) (userCorrection : string)
  : M loc :=
  missing <- apiKey_missing ;;
  if missing then throw (new_Error "API Key is missing.")
  else
    (current <- load currentAnalysis ;;
     let prompt := recalc_prompt (JSON_stringify current) userCorrection in
     retryWithBackoff_default (recalc_attempt prompt)).

End Recalculate.

End GeminiV3.

(* ------------------------------------------------------------------ *)
(** ** Fourth version of [geminiService.ts] (lines 711-891) *)

Module GeminiV4.

Definition promptText : string :=
  "Проанализируй это изображение еды. Определи каждое блюдо или ингредиент, оцени их вес в граммах и рассчитай КБЖУ (Калории, Белки, Жиры, Углеводы). Укажи степень уверенности (confidence) для каждого продукта от 0.0 до 1.0. Будь максимально точным. Верни результат в формате JSON. Используй русский язык для названий и описания.".

Definition contentPart (base64Image mimeType : string) : Contents :=
  CParts [InlineData base64Image mimeType; TextPart promptText].

(** [analyzeFoodImage] (lines 763-802): one Pro call, no retry and no
    fallback; every failure is rethrown as a plain [Error]. *)
Definition analyzeFoodImage (base64Image mimeType : string) : M loc :=
  missing <- apiKey_missing ;;
  if missing
  then throw (new_Error "API Key is missing in the application configuration.")
  else
    try_catch
      (text <- generateContent
                 (mkRequest GeminiV1.proModel (contentPart base64Image mimeType)
                    GeminiV1.configPart) ;;
       parse_text text "No response from Gemini")
      (fun error => rethrow_as_Error error "Failed to analyze image").

End GeminiV4.

(* ------------------------------------------------------------------ *)
(** ** More of [App.tsx] *)

(** [Math.round(x)]: the nearest integer, halves rounded up. *)
Definition math_round (x : Q) : Z := Qfloor (x + (1 # 2))%Q.

Fixpoint digits_fuel (fuel : nat) (n : N) (acc : string) : string :=
  match fuel with
  | O => acc
  | S f =>
      let acc' := String (ascii_of_N (48 + N.modulo n 10)) acc in
      if (n <? 10)%N then acc' else digits_fuel f (N.div n 10) acc'
  end.

(** [String(n)] for an integral number [n]: its decimal digits, with a
    leading [-] when negative. *)
Definition z_to_string (z : Z) : string :=
  match z with
  | Z0 => "0"
  | Zpos p => digits_fuel (S (Pos.size_nat p)) (Npos p) EmptyString
  | Zneg p => "-" ++ digits_fuel (S (Pos.size_nat p)) (Npos p) EmptyString
  end.

Record ConfidenceStyle := mkConfidenceStyle {
  className : string; label : string; title : string }.

(** [getConfidenceStyle] (lines 118-135, the same in BACKEND_SPEC.md lines
    380-397).  Numbers are rationals, as in the rest of this development;
    a double compares with the literals [0.8] and [0.5] as its exact
    value compares with 4/5 and 1/2, since no double lies between 4/5 and
    the double nearest to it. *)
Definition getConfidenceStyle (score : Q) : ConfidenceStyle :=
  let percentage := math_round (score * 100)%Q in
  if Qle_bool (8 # 10) score then
    mkConfidenceStyle "bg-green-100 text-green-700 border-green-200"
      (z_to_string percentage ++ "%") "Высокая точность"
  else if Qle_bool (5 # 10) score then
    mkConfidenceStyle "bg-yellow-100 text-yellow-700 border-yellow-200"
      (z_to_string percentage ++ "%") "Средняя точность"
  else
    mkConfidenceStyle "bg-red-100 text-red-700 border-red-200"
      (z_to_string percentage ++ "%") "Низкая точность".

(** The rank of a style: 2 for the green badge, 1 for the yellow one,
    0 for the red one. *)
Definition style_rank (st : ConfidenceStyle) : nat :=
  if String.eqb (title st) "Высокая точность" then 2
  else if String.eqb (title st) "Средняя точность" then 1
  else 0.

Definition msg_speech_failed : string := "Не удалось распознать речь.".

(** [handleAudioCorrection] (lines 103-116), run to completion; the
    awaited [transcribeAudio] is the parameter [transcribeAudio]. *)
Definition handleAudioCorrection {Blob : Type}
  (transcribeAudio : Blob -> Res string) (blob : Blob) (s : SessionState)
  : SessionState :=
  let s1 := setLoadingMessage "Распознаю голос..."
              (setAppState PROCESSING_CORRECTION s) in
  match transcribeAudio blob with
  | Ok transcription =>
      setAppState RESULT_VIEW (setCorrectionText transcription s1)
  | Thrown _ =>
      setAppState RESULT_VIEW (setErrorMessage (Some msg_speech_failed) s1)
  end.

(* ------------------------------------------------------------------ *)
(** ** The [App] of [BACKEND_SPEC.md] (lines 197-400) *)

(** [s.toLowerCase()] as [includes] with an ASCII keyword sees it.  In
    UTF-8 an ASCII keyword can only match ASCII bytes, and a lowered
    character is ASCII-free except for three cases: an ASCII capital, the
    Kelvin sign U+212A (lowered to [k]) and U+0130 (lowered to [i]
    followed by U+0307).  The function lowers those and keeps every other
    character, which changes no ASCII byte and no run of ASCII bytes. *)
Fixpoint toLowerCase_ascii (s : string) : string :=
  match s with
  | EmptyString => EmptyString
  | String c s' =>
      let n := nat_of_ascii c in
      if Nat.leb 65 n && Nat.leb n 90 then
        String (ascii_of_nat (n + 32)) (toLowerCase_ascii s')
      else if Nat.eqb n 226 then
        match s' with
        | String c1 (String c2 s'') =>
            if Nat.eqb (nat_of_ascii c1) 132 && Nat.eqb (nat_of_ascii c2) 170
            then String "k" (toLowerCase_ascii s'')
            else String c (toLowerCase_ascii s')
        | _ => String c (toLowerCase_ascii s')
        end
      else if Nat.eqb n 196 then
        match s' with
        | String c1 s'' =>
            if Nat.eqb (nat_of_ascii c1) 176
            then String "i" (String (ascii_of_nat 204)
                   (String (ascii_of_nat 135) (toLowerCase_ascii s'')))
            else String c (toLowerCase_ascii s')
        | _ => String c (toLowerCase_ascii s')
        end
      else String c (toLowerCase_ascii s')
  end.

Module BackendApp.

Record SessionState := mkSession {
  appState : AppState;
  selectedImage : option string;
  analysisResult : option AnalysisResult;
  correctionText : string;
  errorMessage : option string;
  rawError : option string;
  loadingMessage : string }.

Definition setAppState (v : AppState) (s : SessionState) : SessionState :=
  mkSession v (selectedImage s) (analysisResult s) (correctionText s)
            (errorMessage s) (rawError s) (loadingMessage s).
Definition setSelectedImage (v : option string) (s : SessionState) :=
  mkSession (appState s) v (analysisResult s) (correctionText s)
            (errorMessage s) (rawError s) (loadingMessage s).
Definition setAnalysisResult (v : option AnalysisResult) (s : SessionState) :=
  mkSession (appState s) (selectedImage s) v (correctionText s)
            (errorMessage s) (rawError s) (loadingMessage s).
Definition setCorrectionText (v : string) (s : SessionState) :=
  mkSession (appState s) (selectedImage s) (analysisResult s) v
            (errorMessage s) (rawError s) (loadingMessage s).
Definition setErrorMessage (v : option string) (s : SessionState) :=
  mkSession (appState s) (selectedImage s) (analysisResult s)
            (correctionText s) v (rawError s) (loadingMessage s).
Definition setRawError (v : option string) (s : SessionState) :=
  mkSession (appState s) (selectedImage s) (analysisResult s)
            (correctionText s) (errorMessage s) v (loadingMessage s).
Definition setLoadingMessage (v : string) (s : SessionState) :=
  mkSession (appState s) (selectedImage s) (analysisResult s)
            (correctionText s) (errorMessage s) (rawError s) v.

(** [resetApp] (lines 220-227) *)
Definition resetApp (s : SessionState) : SessionState :=
  setRawError None (setErrorMessage None (setCorrectionText ""
    (setAnalysisResult None (setSelectedImage None (setAppState IDLE s))))).

(** The canvas size computed in [img.onload] of [resizeImage] (lines
    258-273) for an image of [width] x [height] pixels.  [Math.round(p / q)]
    for [q > 0] is [floor((2p + q) / 2q)]; for pixel sizes below 2^20 the
    double quotient rounds to the same integer. *)
Definition js_round_div (p q : Z) : Z := ((2 * p + q) / (2 * q))%Z.

Definition maxDim : Z := 1024.

Definition resize_dims (width height : Z) : Z * Z :=
  if (maxDim <? width)%Z || (maxDim <? height)%Z then
    if (height <? width)%Z
    then (maxDim, js_round_div (height * maxDim) width)
    else (js_round_div (width * maxDim) height, maxDim)
  else (width, height).

Definition msg_access : string :=
  "Ошибка доступа (403). Проверьте, включен ли Gemini API в Google Cloud Console и не заблокирован ли ваш ключ.".
Definition msg_rate : string :=
  "Превышено количество запросов. Пожалуйста, повторите попытку позже.".
Definition msg_overloaded : string :=
  "Сервер временно перегружен. Повторите попытку через минуту.".
Definition msg_config : string :=
  "Ошибка конфигурации сервиса. Обратитесь к администратору.".
Definition msg_default : string :=
  "Произошла ошибка при обработке данных. Попробуйте еще раз.".

(** [getUserFriendlyError] (lines 287-312) *)
Definition getUserFriendlyError (error : JsErr) : string :=
  let msg := toLowerCase_ascii (match message error with
                                | Some m => m
                                | None => EmptyString
                                end) in
  if includes "403" msg || includes "permission_denied" msg then msg_access
  else if includes "429" msg || includes "quota" msg
          || includes "resource_exhausted" msg then msg_rate
  else if includes "503" msg || includes "overloaded" msg then msg_overloaded
  else if includes "api key" msg then msg_config
  else msg_default.

Section Handlers.

(** [JSON.stringify(error)], used when the error has no message. *)
Variable JSON_stringify_error : JsErr -> string.

(** [error.message || JSON.stringify(error)] *)
Definition raw_of (error : JsErr) : string :=
  match message error with
  | Some m => if String.eqb m "" then JSON_stringify_error error else m
  | None => JSON_stringify_error error
  end.

(** The catch branches: [setRawError], [setErrorMessage], [setAppState]. *)
Definition report (st : AppState) (error : JsErr) (s : SessionState)
  : SessionState :=
  setAppState st (setErrorMessage (Some (getUserFriendlyError error))
                    (setRawError (Some (raw_of error)) s)).

(** [handleImageSelect] (lines 314-337); [resizeImage] resolves to the
    data URL of the compressed JPEG, or rejects. *)
Definition handleImageSelect
  (resizeImage : File -> Res string)
  (analyzeFoodImage : option string -> string -> Res AnalysisResult)
  (file : File) (s : SessionState) : list ServiceCall * SessionState :=
  let s1 := setRawError None (setErrorMessage None
              (setLoadingMessage "Сжимаю и анализирую фото..."
                 (setAppState ANALYZING_IMAGE s))) in
  match resizeImage file with
  | Thrown error => ([], report ERROR error s1)
  | Ok resizedBase64 =>
      let s2 := setSelectedImage (Some resizedBase64) s1 in
      let base64Data := nth_error (split_comma resizedBase64) 1 in
      let mimeType := "image/jpeg" in
      ([CallAnalyzeFoodImage base64Data mimeType],
       match analyzeFoodImage base64Data mimeType with
       | Ok result =>
           setAppState RESULT_VIEW (setAnalysisResult (Some result) s2)
       | Thrown error => report ERROR error s2
       end)
  end.

(** [handleCorrectionSubmit] (lines 339-360) *)
Definition handleCorrectionSubmit
  (recalculateMacros : AnalysisResult -> string -> Res AnalysisResult)
  (s : SessionState) : list ServiceCall * SessionState :=
  let text := trim (correctionText s) in
  if String.eqb text "" then ([], s)
  else
    match analysisResult s with
    | None => ([], s)
    | Some current =>
        let s1 := setRawError None (setErrorMessage None
                    (setLoadingMessage "Пересчитываю КБЖУ с учетом правок..."
                       (setAppState PROCESSING_CORRECTION s))) in
        ([CallRecalculateMacros current text],
         match recalculateMacros current text with
         | Ok newResult =>
             setAppState RESULT_VIEW
               (setCorrectionText "" (setAnalysisResult (Some newResult) s1))
         | Thrown error => report RESULT_VIEW error s1
         end)
    end.

(** [handleAudioCorrection] (lines 362-378) *)
Definition handleAudioCorrection {Blob : Type}
  (transcribeAudio : Blob -> Res string) (blob : Blob) (s : SessionState)
  : SessionState :=
  let s1 := setRawError None (setErrorMessage None
              (setLoadingMessage "Распознаю голос..."
                 (setAppState PROCESSING_CORRECTION s))) in
  match transcribeAudio blob with
  | Ok transcription =>
      setAppState RESULT_VIEW (setCorrectionText transcription s1)
  | Thrown error => report RESULT_VIEW error s1
  end.

End Handlers.

End BackendApp.

(* ------------------------------------------------------------------ *)
(** ** Vocabulary of the specification *)

Close Scope string_scope.
Open Scope list_scope.

(** The failure kinds of the spec's Error Classifier. *)
Inductive ErrorKind :=
| RATE_LIMITED | OVERLOADED | ACCESS_DENIED | NOT_FOUND
| MALFORMED_OUTPUT | UNKNOWN.

(** The classification the spec describes for an error object: the status
    code first, substrings of the message only when there is no status.
    The code has no classifier; this is the vocabulary the claims use. *)
Definition classify (e : JsErr) : ErrorKind :=
  match status e with
  | Some s =>
      if Z.eqb s 429 then RATE_LIMITED
      else if Z.eqb s 503 then OVERLOADED
      else if Z.eqb s 403 then ACCESS_DENIED
      else if Z.eqb s 404 then NOT_FOUND
      else UNKNOWN
  | None =>
      if message_includes e "429" then RATE_LIMITED
      else if message_includes e "503" then OVERLOADED
      else if message_includes e "403"
              || message_includes e "PERMISSION_DENIED" then ACCESS_DENIED
      else if message_includes e "404" then NOT_FOUND
      else UNKNOWN
  end.


(** The calls and the waits of a trace. *)
Fixpoint calls_of (l : list Event) : list (Request * Reply) :=
  match l with
  | [] => []
  | Call q r :: l' => (q, r) :: calls_of l'
  | Sleep _ :: l' => calls_of l'
  end.

Fixpoint sleeps_of (l : list Event) : list Z :=
  match l with
  | [] => []
  | Call _ _ :: l' => sleeps_of l'
  | Sleep d :: l' => d :: sleeps_of l'
  end.

(** An operation that issues exactly one service call each time it runs. *)
Definition one_call {A} (fn : M A) : Prop :=
  forall w, exists req rep, log (snd (fn w)) = log w ++ [Call req rep].

(** The error the code sees for a reply: the thrown error, the
    "no response" error, or the [SyntaxError] of [JSON.parse]. *)
Definition err_of_reply (rep : Reply) (no_response : string) : option JsErr :=
  match rep with
  | RThrow e => Some e
  | RText None => Some (new_Error no_response)
  | RText (Some (RawBad m)) => Some (mkJsErr None (Some m))
  | RText (Some (RawJson _)) => None
  end.

(** The error of a call made by [GeminiV1.attempt]: each tier has its own
    "no response" message. *)
Definition call_error (req : Request) (rep : Reply) : option JsErr :=
  err_of_reply rep
    (if String.eqb (model req) GeminiV1.flashModel
     then GeminiV1.msg_no_response_flash else GeminiV1.msg_no_response).

Definition starts_with_model (m : string) (l : list Event) : Prop :=
  match l with
  | Call req _ :: _ => model req = m
  | _ => False
  end.

(** A string made only of white space, in the sense of [trim]. *)
Definition concat_str (ws : list string) : string :=
  fold_right String.append EmptyString ws.

Definition ws_only (s : string) : Prop :=
  exists ws, Forall (fun w => In w js_ws) ws /\ s = concat_str ws.

(** The two requests [GeminiV1.attempt] can make. *)
Definition proReq (b m : string) : Request :=
  mkRequest GeminiV1.proModel (GeminiV1.contentPart b m) GeminiV1.configPart.
Definition flashReq (b m : string) : Request :=
  mkRequest GeminiV1.flashModel (GeminiV1.contentPart b m) GeminiV1.configPart.

(** The trace and outcome of one run of [GeminiV1.attempt]. *)
Inductive attempt_block (b m : string) : list Event -> Res loc -> Prop :=
| ab_pro_ok rep l :
    call_error (proReq b m) rep = None ->
    attempt_block b m [Call (proReq b m) rep] (Ok l)
| ab_pro_err rep e :
    call_error (proReq b m) rep = Some e ->
    GeminiV1.fallback_signal e = false ->
    attempt_block b m [Call (proReq b m) rep] (Thrown e)
| ab_flash rep1 e1 rep2 res :
    call_error (proReq b m) rep1 = Some e1 ->
    GeminiV1.fallback_signal e1 = true ->
    match call_error (flashReq b m) rep2 with
    | Some e2 => res = Thrown e2
    | None => exists l, res = Ok l
    end ->
    attempt_block b m [Call (proReq b m) rep1; Call (flashReq b m) rep2] res.

(** Runs of [GeminiV1.attempt] under [retryWithBackoff]: a wait after each
    run that threw a retryable error, the last run giving the outcome. *)
Inductive chain (b m : string) : list Event -> Res loc -> Prop :=
| chain_stop blk res :
    attempt_block b m blk res -> chain b m blk res
| chain_retry blk e d rest res :
    attempt_block b m blk (Thrown e) -> retry_signal e = true ->
    chain b m rest res -> chain b m (blk ++ Sleep d :: rest) res.

(** Effects of an operation started on a heap satisfying [Pre]: objects
    are only added to the heap, events only appended to the trace, every
    new event satisfies [P], and a result satisfies [R] against the heap
    the operation started from. *)
Definition frame (Pre : list AnalysisResult -> Prop) (P : Event -> Prop)
  {A} (R : A -> list AnalysisResult -> Prop) (m : M A) : Prop :=
  forall w, Pre (heap w) ->
    exists ext new,
      heap (snd (m w)) = heap w ++ ext /\
      log (snd (m w)) = log w ++ new /\ Forall P new /\
      (forall a, fst (m w) = Ok a -> R a (heap w)).

(** A successful result is the object parsed from the reply of the last
    call of the trace. *)
Definition result_is_last_payload (l : loc) (w : World) : Prop :=
  exists pre req r,
    log w = pre ++ [Call req (RText (Some (RawJson r)))] /\
    nth_error (heap w) l = Some r.

Definition ok_post {A} (Q : A -> World -> Prop) (m : M A) : Prop :=
  forall w a w', m w = (Ok a, w') -> Q a w'.

(** Every call of the trace sends [prompt]. *)
Definition prompt_event (prompt : string) (ev : Event) : Prop :=
  match ev with
  | Call req _ => contents req = CString prompt
  | Sleep _ => True
  end.

(** A successful [analyzeFoodText text] result: the payload parsed from
    the reply to the last call, the Flash request for [text], with only
    [modelUsed] set. *)
Definition text_result (text : string) (l : loc) (w : World) : Prop :=
  exists pre r,
    log w = pre ++ [Call (mkRequest "gemini-2.5-flash"
                            (CString (GeminiV3.text_prompt text))
                            GeminiV3.configPart)
                         (RText (Some (RawJson r)))] /\
    nth_error (heap w) l =
      Some (mkAnalysisResult (items r) (total r) (summary r)
              (Some "Gemini 2.5 Flash (Text)"%string)).

(** The [modelUsed] label the third version sets for the tier [m]. *)
Definition tier_label (m : string) : string :=
  if String.eqb m GeminiV1.proModel then "Gemini 3.0 Pro"%string
  else "Gemini 2.5 Flash"%string.

Definition with_modelUsed (r : AnalysisResult) (nm : string) : AnalysisResult :=
  mkAnalysisResult (items r) (total r) (summary r) (Some nm).

(** A successful result of the third version: the payload of the last
    call's reply, labelled with the tier that call went to. *)
Definition labelled_result (l : loc) (w : World) : Prop :=
  exists pre req r,
    log w = pre ++ [Call req (RText (Some (RawJson r)))] /\
    (model req = GeminiV1.proModel \/ model req = GeminiV1.flashModel) /\
    nth_error (heap w) l = Some (with_modelUsed r (tier_label (model req))).

(** [error.message || dflt] *)
Definition message_or (e : JsErr) (dflt : string) : string :=
  match message e with
  | Some m => if String.eqb m EmptyString then dflt else m
  | None => dflt
  end.

(** The world after one call [req] answered with [rep]. *)
Definition after_call (w : World) (req : Request) (rep : Reply) : World :=
  mkWorld (svc w) (API_KEY w) (S (next w)) (log w ++ [Call req rep]) (heap w).

Definition sum_Z (l : list Z) : Z := fold_right Z.add 0%Z l.

(** The trace a run adds: at most [k] calls and no wait. *)
Definition calls_at_most {A} (k : nat) (m : M A) : Prop :=
  forall w, exists new,
    log (snd (m w)) = log w ++ new /\ length (calls_of new) <= k /\
    sleeps_of new = [].

(** The trace a run adds: at most [calls] calls, and waits of at most
    [ms] milliseconds in all. *)
Definition within_budget {A} (calls : nat) (ms : Z) (m : M A) : Prop :=
  forall w, exists new,
    log (snd (m w)) = log w ++ new /\ length (calls_of new) <= calls /\
    (sum_Z (sleeps_of new) <= ms)%Z.

(** The trace of [retryWithBackoff] around an operation making the single
    call [req]: the failed calls [reps], each followed by its wait, the
    wait doubling from [delay], then the last call, answered [last]. *)
Fixpoint retry_trace (req : Request) (reps : list Reply) (delay : Z)
  (last : Reply) : list Event :=
  match reps with
  | [] => [Call req last]
  | rep :: reps' => Call req rep :: Sleep delay :: retry_trace req reps' (delay * 2) last
  end.

(** The request [GeminiV3.text_attempt text] sends (lines 589-596). *)
Definition text_request (text : string) : Request :=
  mkRequest "gemini-2.5-flash" (CString (GeminiV3.text_prompt text))
            GeminiV3.configPart.

(* ------------------------------------------------------------------ *)
(** ** Concrete inputs *)

Open Scope string_scope.

Definition macros0 : MacroData := mkMacroData 0 0 0 0.

Definition bread (conf : Q) : FoodItem :=
  mkFoodItem "Хлеб" 30 (mkMacroData 80 3 1 15) conf.

Definition result_bread (conf : Q) : AnalysisResult :=
  mkAnalysisResult [bread conf] (mkMacroData 80 3 1 15) "Хлеб" None.

Definition err_429 : JsErr := mkJsErr (Some 429%Z) (Some "Too Many Requests").
Definition err_403 : JsErr :=
  mkJsErr (Some 403%Z) (Some "PERMISSION_DENIED").
Definition err_500 : JsErr := mkJsErr (Some 500%Z) (Some "Internal error").

Definition world_of (f : nat -> Request -> Reply) : World :=
  mkWorld f (Some "key") 0 [] [].

(** Every call is rate limited. *)
Definition w_all_429 : World := world_of (fun _ _ => RThrow err_429).

(** The Pro tier is denied, the Flash tier answers. *)
Definition w_pro_denied : World :=
  world_of (fun _ req =>
    if String.eqb (model req) GeminiV1.proModel then RThrow err_403
    else RText (Some (RawJson (result_bread (8 # 10))))).

(** The first call fails with an internal error. *)
Definition w_internal : World := world_of (fun _ _ => RThrow err_500).

(** The model reports a confidence of 1.4. *)
Definition w_conf_14 : World :=
  world_of (fun _ _ => RText (Some (RawJson (result_bread (14 # 10))))).

(** A stored result at location 0; the model answers with a new one. *)
Definition w_stored : World :=
  mkWorld (fun _ _ => RText (Some (RawJson (result_bread (14 # 10)))))
          (Some "key") 0 [] [result_bread (8 # 10)].

Definition req_demo : Request :=
  mkRequest "gemini-2.5-flash" (CString "demo") GeminiV3.configPart.

Definition session_result : SessionState :=
  mkSession RESULT_VIEW (Some "data:image/jpeg;base64,AAAA")
            (Some (result_bread (8 # 10))) "убери хлеб" None "".

(** A correction made of a space, a tab and a no-break space. *)
Definition session_blank : SessionState :=
  mkSession RESULT_VIEW (Some "data:image/jpeg;base64,AAAA")
            (Some (result_bread (8 # 10))) (bytes [32; 9; 194; 160]%nat) None "".

(** Failures: a 503 that names no code in its message, and a bare
    [PERMISSION_DENIED] message with no status. *)
Definition err_503 : JsErr := mkJsErr (Some 503%Z) (Some "Service Unavailable").
Definition err_pd : JsErr := mkJsErr None (Some "PERMISSION_DENIED").

(** No API key is configured. *)
Definition w_no_key : World := mkWorld (fun _ _ => RThrow err_500) None 0 [] [].

(** A stored result at location 0, and a backend failing every call. *)
Definition stored_with (e : JsErr) : World :=
  mkWorld (fun _ _ => RThrow e) (Some "key") 0 [] [result_bread (8 # 10)].

(** A session of the [BACKEND_SPEC.md] app with a padded correction. *)
Definition backend_session : BackendApp.SessionState :=
  BackendApp.mkSession RESULT_VIEW (Some "data:image/jpeg;base64,AAAA")
    (Some (result_bread (8 # 10))) "  убери хлеб " None None "".



Definition file_demo : File := mkFile "image/jpeg" "data:image/jpeg;base64,AAAA".

Close Scope string_scope.

(* ================================================================== *)
(** * Properties *)

Lemma calls_of_app l1 l2 : calls_of (l1 ++ l2) = calls_of l1 ++ calls_of l2.
Proof. induction l1 as [|[] l1 IH]; simpl; try rewrite IH; reflexivity. Qed.

Lemma sleeps_of_app l1 l2 : sleeps_of (l1 ++ l2) = sleeps_of l1 ++ sleeps_of l2.
Proof. induction l1 as [|[] l1 IH]; simpl; try rewrite IH; reflexivity. Qed.

Lemma doubling_shift (delay : Z) n :
  map (fun k => delay * 2 ^ Z.of_nat k)%Z (seq 0 (S n))
  = delay :: map (fun k => (delay * 2) * 2 ^ Z.of_nat k)%Z (seq 0 n).
Proof.
  simpl. f_equal; [lia|].
  rewrite <- seq_shift, map_map. apply map_ext. intros k.
  rewrite Nat2Z.inj_succ, Z.pow_succ_r by lia. ring.
Qed.

(** C2: one run of the wrapped operation, then one more after each wait;
    at most [retries + 1] runs (the spec's [maxAttempts]), and the waits
    are [delay], [2 * delay], [4 * delay], ...: with the defaults
    [retries = 3] and [delay = 1000], at most 4 calls and the waits are a
    prefix of 1000, 2000, 4000 ms. *)
Theorem retryWithBackoff_attempts_and_delays {A} (fn : M A)
  (retries : nat) (delay : Z) (w : World) :
  one_call fn ->
  exists n new,
    n <= retries /\
    log (snd (retryWithBackoff fn retries delay w)) = log w ++ new /\
    length (calls_of new) = S n /\
    sleeps_of new = map (fun k => delay * 2 ^ Z.of_nat k)%Z (seq 0 n).
Proof.
  intros Hone. revert delay w.
  induction retries as [|retries IH]; intros delay w;
    cbn [retryWithBackoff]; unfold try_catch;
    destruct (Hone w) as (req & rep & Hl);
    destruct (fn w) as [[a|e] w1] eqn:E; simpl in Hl.
  - exists 0, [Call req rep]. simpl. auto.
  - exists 0, [Call req rep]. simpl. auto.
  - exists 0, [Call req rep]. simpl. split; [lia | auto].
  - destruct (retry_signal e).
    + unfold bind, sleep.
      destruct (IH (delay * 2)%Z (with_log w1 (log w1 ++ [Sleep delay])))
        as (n & new & Hn & Hlog & Hc & Hs).
      exists (S n), (Call req rep :: Sleep delay :: new).
      simpl in Hlog. split; [lia|]. split.
      { rewrite Hlog, Hl, <- !app_assoc. reflexivity. }
      split; [simpl; rewrite Hc; reflexivity|].
      rewrite doubling_shift. simpl. rewrite Hs. reflexivity.
    + exists 0, [Call req rep]. simpl. repeat split; auto; lia.
Qed.

Lemma retryWithBackoff_attempts_and_delays_witness :
  one_call (generateContent req_demo) /\
  exists n new,
    n <= 3 /\
    log (snd (retryWithBackoff (generateContent req_demo) 3 1000 w_all_429))
      = log w_all_429 ++ new /\
    length (calls_of new) = S n /\
    sleeps_of new = map (fun k => 1000 * 2 ^ Z.of_nat k)%Z (seq 0 n).
Proof.
  assert (H : one_call (generateContent req_demo)).
  { intros w. exists req_demo, (svc w (next w) req_demo).
    unfold generateContent. destruct (svc w (next w) req_demo); reflexivity. }
  split; [exact H|].
  apply (retryWithBackoff_attempts_and_delays (generateContent req_demo)
           3 1000 w_all_429 H).
Defined.

(** Default policy, all calls rate limited: four calls, waits of 1, 2 and
    4 seconds. *)
Example retry_default_all_429 :
  let w' := snd (retryWithBackoff_default (generateContent req_demo) w_all_429) in
  length (calls_of (log w')) = 4 /\ sleeps_of (log w') = [1000; 2000; 4000]%Z.
Proof. vm_compute. split; reflexivity. Qed.

(* ------------------------------------------------------------------ *)
(** ** One run of [GeminiV1.attempt] *)

(** A call followed by [parse_text]. *)
Lemma call_parse_spec req msg w :
  let rep := svc w (next w) req in
  let w1 := mkWorld (svc w) (API_KEY w) (S (next w))
                    (log w ++ [Call req rep]) (heap w) in
  match err_of_reply rep msg with
  | Some e => (text <- generateContent req ;; parse_text text msg) w
              = (Thrown e, w1)
  | None => exists r, rep = RText (Some (RawJson r)) /\
      (text <- generateContent req ;; parse_text text msg) w
      = (Ok (length (heap w)),
         mkWorld (svc w) (API_KEY w) (S (next w))
                 (log w ++ [Call req rep]) (heap w ++ [r]))
  end.
Proof.
  simpl. unfold bind, generateContent.
  destruct (svc w (next w) req) as [e|[[r|m]|]]; simpl; eauto.
Qed.

Lemma proReq_error b m rep :
  call_error (proReq b m) rep = err_of_reply rep GeminiV1.msg_no_response.
Proof. reflexivity. Qed.

Lemma flashReq_error b m rep :
  call_error (flashReq b m) rep
  = err_of_reply rep GeminiV1.msg_no_response_flash.
Proof. reflexivity. Qed.

Lemma attempt_cases b m w :
  exists blk,
    log (snd (GeminiV1.attempt b m w)) = log w ++ blk /\
    attempt_block b m blk (fst (GeminiV1.attempt b m w)).
Proof.
  unfold GeminiV1.attempt, try_catch.
  pose proof (call_parse_spec (proReq b m) GeminiV1.msg_no_response w) as H1.
  cbv zeta in H1. fold (proReq b m). rewrite <- (proReq_error b m) in H1.
  destruct (call_error (proReq b m) (svc w (next w) (proReq b m)))
    as [e1|] eqn:E1.
  - rewrite H1. destruct (GeminiV1.fallback_signal e1) eqn:F.
    + set (w1 := mkWorld (svc w) (API_KEY w) (S (next w))
                   (log w ++ [Call (proReq b m) (svc w (next w) (proReq b m))])
                   (heap w)).
      pose proof (call_parse_spec (flashReq b m)
                    GeminiV1.msg_no_response_flash w1) as H2.
      cbv zeta in H2. fold (flashReq b m). rewrite <- (flashReq_error b m) in H2.
      destruct (call_error (flashReq b m) (svc w1 (next w1) (flashReq b m)))
        as [e2|] eqn:E2.
      * rewrite H2.
        exists [Call (proReq b m) (svc w (next w) (proReq b m));
                Call (flashReq b m) (svc w1 (next w1) (flashReq b m))].
        split.
        -- simpl. rewrite <- app_assoc. reflexivity.
        -- eapply ab_flash; eauto. rewrite E2. reflexivity.
      * destruct H2 as (r & _ & H2). rewrite H2.
        exists [Call (proReq b m) (svc w (next w) (proReq b m));
                Call (flashReq b m) (svc w1 (next w1) (flashReq b m))].
        split.
        -- simpl. rewrite <- app_assoc. reflexivity.
        -- eapply ab_flash; eauto. rewrite E2. eexists. reflexivity.
    + eexists. split; [reflexivity|]. apply ab_pro_err; assumption.
  - destruct H1 as (r & _ & H1). rewrite H1.
    eexists. split; [reflexivity|]. apply ab_pro_ok; assumption.
Qed.

(* ------------------------------------------------------------------ *)
(** ** [GeminiV1.analyzeFoodImage]: the runs of the fallback chain *)

Lemma retry_attempt_chain b m n d w :
  exists new,
    log (snd (retryWithBackoff (GeminiV1.attempt b m) n d w)) = log w ++ new /\
    chain b m new (fst (retryWithBackoff (GeminiV1.attempt b m) n d w)).
Proof.
  revert d w. induction n as [|n IH]; intros d w;
    cbn [retryWithBackoff]; unfold try_catch;
    destruct (attempt_cases b m w) as (blk & Hl & Hb);
    destruct (GeminiV1.attempt b m w) as [[a|e] w1]; simpl in Hl, Hb.
  - exists blk. split; [exact Hl | now constructor].
  - exists blk. split; [exact Hl | now constructor].
  - exists blk. split; [exact Hl | now constructor].
  - destruct (retry_signal e) eqn:R.
    + unfold bind, sleep.
      destruct (IH (d * 2)%Z (with_log w1 (log w1 ++ [Sleep d])))
        as (new & Hnew & Hc).
      exists (blk ++ Sleep d :: new). split.
      * rewrite Hnew. simpl. rewrite Hl, <- !app_assoc. reflexivity.
      * eapply chain_retry; eauto.
    + exists blk. split; [exact Hl | now constructor].
Qed.

Lemma analyzeFoodImage_chain b m w :
  exists new,
    log (snd (GeminiV1.analyzeFoodImage b m w)) = log w ++ new /\
    ((new = [] /\ fst (GeminiV1.analyzeFoodImage b m w)
                   = Thrown (new_Error
                       "API Key is missing in the application configuration."%string))
     \/ chain b m new (fst (GeminiV1.analyzeFoodImage b m w))).
Proof.
  unfold GeminiV1.analyzeFoodImage, bind, apiKey_missing.
  destruct (match API_KEY w with
            | Some k => String.eqb k EmptyString
            | None => true
            end).
  - exists []. rewrite app_nil_r. split; [reflexivity|]. left. split; reflexivity.
  - destruct (retry_attempt_chain b m 3 1000 w) as (new & H1 & H2).
    exists new. split; [exact H1|]. right. exact H2.
Qed.

Lemma split_app_cons {X} (A B pre post : list X) (x : X) :
  A ++ B = pre ++ x :: post ->
  (exists pre', pre = A ++ pre' /\ B = pre' ++ x :: post) \/
  (exists post', A = pre ++ x :: post' /\ post = post' ++ B).
Proof.
  intros H. apply app_eq_app in H as (l & [[H1 H2]|[H1 H2]]).
  - destruct l as [|y l].
    + left. exists []. rewrite app_nil_r in H1. simpl in H2. subst.
      rewrite app_nil_r. auto.
    + right. inversion H2; subst. exists l. auto.
  - left. exists l. auto.
Qed.



Lemma classify_fallback e :
  classify e = ACCESS_DENIED \/ classify e = NOT_FOUND ->
  GeminiV1.fallback_signal e = true.
Proof.
  unfold classify, GeminiV1.fallback_signal, status_is.
  destruct (status e) as [s|].
  - destruct (Z.eqb s 429), (Z.eqb s 503), (Z.eqb s 403), (Z.eqb s 404);
      simpl; intros [H|H]; try discriminate; rewrite ?orb_true_r; reflexivity.
  - destruct (message_includes e "429"), (message_includes e "503"),
      (message_includes e "403"), (message_includes e "404"),
      (message_includes e "PERMISSION_DENIED");
      simpl; intros [H|H]; try discriminate; rewrite ?orb_true_r; reflexivity.
Qed.

Lemma block_pro_fallback b m blk res pre req rep post e :
  attempt_block b m blk res ->
  blk = pre ++ Call req rep :: post ->
  model req = GeminiV1.proModel ->
  call_error req rep = Some e ->
  GeminiV1.fallback_signal e = true ->
  pre = [] /\ req = proReq b m /\ exists rep', post = [Call (flashReq b m) rep'].
Proof.
  intros Hb Heq Hm He Hf.
  destruct Hb as [rep0 l H0|rep0 e0 H0 F0|rep1 e1 rep2 res0 H1 F1 H2];
    destruct pre as [|x1 [|x2 pre]]; simpl in Heq; inversion Heq; subst;
    try (destruct pre; discriminate).
  - congruence.
  - congruence.
  - eauto.
  - discriminate.
Qed.


Lemma chain_fallback b m new res :
  chain b m new res ->
  forall pre req rep post e,
    new = pre ++ Call req rep :: post ->
    model req = GeminiV1.proModel ->
    call_error req rep = Some e ->
    GeminiV1.fallback_signal e = true ->
    req = proReq b m /\
    exists rep' post', post = Call (flashReq b m) rep' :: post' /\
                       ~ starts_with_model GeminiV1.flashModel post'.
Proof.
  induction 1 as [blk res Hb|blk e0 d rest res Hb R Hc IH];
    intros pre req rep post e Heq Hm He Hf.
  - destruct (block_pro_fallback _ _ _ _ _ _ _ _ _ Hb Heq Hm He Hf)
      as (_ & Hr & rep' & Hp).
    split; [exact Hr|]. exists rep', []. simpl. auto.
  - apply split_app_cons in Heq as [(pre' & Hpre & Hrest)|(post0 & Hblk & Hpost)].
    + destruct pre' as [|y pre']; simpl in Hrest; inversion Hrest; subst.
      eapply IH; eauto.
    + destruct (block_pro_fallback _ _ _ _ _ _ _ _ _ Hb Hblk Hm He Hf)
        as (_ & Hr & rep' & Hp).
      subst. split; [reflexivity|].
      exists rep', (Sleep d :: rest). simpl. auto.
Qed.


(** C3: whenever a call to [gemini-3-pro-preview] fails with an error the
    spec classifies [ACCESS_DENIED] or [NOT_FOUND], the next event of the
    trace is a single call to [gemini-2.5-flash] with the same contents and
    the same config, and the event after it is not another Flash call. *)
Theorem analyzeFoodImage_fallback_once (b m : string) (w : World) :
  exists new,
    log (snd (GeminiV1.analyzeFoodImage b m w)) = log w ++ new /\
    forall pre req rep post e,
      new = pre ++ Call req rep :: post ->
      model req = GeminiV1.proModel ->
      call_error req rep = Some e ->
      classify e = ACCESS_DENIED \/ classify e = NOT_FOUND ->
      contents req = GeminiV1.contentPart b m /\
      exists rep' post',
        post = Call (mkRequest GeminiV1.flashModel (contents req) (config req))
                    rep' :: post' /\
        ~ starts_with_model GeminiV1.flashModel post'.
Proof.
  destruct (analyzeFoodImage_chain b m w) as (new & Hl & Hc).
  exists new. split; [exact Hl|].
  intros pre req rep post e Heq Hm He Hk.
  destruct Hc as [(Hn & _)|Hc].
  - subst. destruct pre; discriminate.
  - destruct (chain_fallback _ _ _ _ Hc _ _ _ _ _ Heq Hm He
                (classify_fallback _ Hk)) as (Hr & rep' & post' & Hp & Hs).
    subst. split; [reflexivity|]. exists rep', post'. auto.
Qed.



(** The Pro tier denied, the Flash tier answering: two calls, the Flash
    payload is the result. *)
Example analyzeFoodImage_pro_denied :
  let r := GeminiV1.analyzeFoodImage "AAAA" "image/jpeg" w_pro_denied in
  fst r = Ok 0 /\
  log (snd r) = [Call (proReq "AAAA" "image/jpeg") (RThrow err_403);
                 Call (flashReq "AAAA" "image/jpeg")
                      (RText (Some (RawJson (result_bread (8 # 10)))))].
Proof. vm_compute. split; reflexivity. Qed.

(** An internal error on the first call: one call, rejected at once. *)
Example analyzeFoodImage_internal_error :
  let r := GeminiV1.analyzeFoodImage "AAAA" "image/jpeg" w_internal in
  fst r = Thrown err_500 /\
  log (snd r) = [Call (proReq "AAAA" "image/jpeg") (RThrow err_500)].
Proof. vm_compute. split; reflexivity. Qed.

(* ------------------------------------------------------------------ *)
(** ** Successful results are the parsed payload *)

Lemma ok_post_try_catch {A} (Q : A -> World -> Prop) (m : M A) h :
  ok_post Q m -> (forall e, ok_post Q (h e)) -> ok_post Q (try_catch m h).
Proof.
  intros Hm Hh w a w'. unfold try_catch.
  destruct (m w) as [[x|e] w1] eqn:E; intros H.
  - inversion H; subst. eapply Hm; eauto.
  - eapply Hh; eauto.
Qed.

Lemma ok_post_bind {A B} (Q : B -> World -> Prop) (m : M A) (k : A -> M B) :
  (forall x, ok_post Q (k x)) -> ok_post Q (bind m k).
Proof.
  intros Hk w a w'. unfold bind.
  destruct (m w) as [[x|e] w1]; intros H; [eapply Hk; eauto|discriminate].
Qed.

Lemma ok_post_throw {A} (Q : A -> World -> Prop) e : ok_post Q (throw e).
Proof. intros w a w' H. discriminate. Qed.

Lemma ok_post_rethrow {A} (Q : A -> World -> Prop) e d :
  ok_post Q (rethrow_as_Error e d).
Proof.
  unfold rethrow_as_Error. destruct (message e) as [msg|];
    [destruct (String.eqb msg "")|]; apply ok_post_throw.
Qed.

Lemma ok_post_retry {A} (Q : A -> World -> Prop) (fn : M A) n d :
  ok_post Q fn -> ok_post Q (retryWithBackoff fn n d).
Proof.
  intros Hfn. revert d. induction n as [|n IH]; intros d;
    cbn [retryWithBackoff]; apply ok_post_try_catch; auto; intros e.
  - apply ok_post_throw.
  - destruct (retry_signal e); [apply ok_post_bind; auto|apply ok_post_throw].
Qed.

Lemma nth_error_last {X} (l : list X) (x : X) :
  nth_error (l ++ [x]) (length l) = Some x.
Proof. rewrite nth_error_app2, Nat.sub_diag by lia. reflexivity. Qed.

Lemma call_parse_payload req msg :
  ok_post result_is_last_payload
    (text <- generateContent req ;; parse_text text msg).
Proof.
  intros w a w' H.
  pose proof (call_parse_spec req msg w) as Hs. cbv zeta in Hs.
  destruct (err_of_reply (svc w (next w) req) msg).
  - rewrite Hs in H. discriminate.
  - destruct Hs as (r & Hr & Hs). rewrite Hs in H. inversion H; subst.
    exists (log w), req, r. rewrite <- Hr. split; [reflexivity|].
    apply nth_error_last.
Qed.

(** C5, as the code has it: there is no result validator.  A successful
    [analyzeFoodImage] or [recalculateMacros] returns the very object
    [JSON.parse] built from the reply of the last call, so a confidence of
    1.4 comes back as 1.4: neither clamped nor rejected. *)
Theorem results_are_unvalidated_payloads
  (JSON_stringify : AnalysisResult -> string)
  (b m : string) (current : loc) (corr : string) (w : World) (l : loc) :
  (fst (GeminiV1.analyzeFoodImage b m w) = Ok l ->
   result_is_last_payload l (snd (GeminiV1.analyzeFoodImage b m w))) /\
  (fst (GeminiV1.recalculateMacros JSON_stringify current corr w) = Ok l ->
   result_is_last_payload l
     (snd (GeminiV1.recalculateMacros JSON_stringify current corr w))).
Proof.
  split; intros H.
  - assert (Hp : ok_post result_is_last_payload
                   (GeminiV1.analyzeFoodImage b m)).
    { unfold GeminiV1.analyzeFoodImage. apply ok_post_bind. intros [|].
      - apply ok_post_throw.
      - apply ok_post_retry. unfold GeminiV1.attempt.
        apply ok_post_try_catch; [apply call_parse_payload|].
        intros e. destruct (GeminiV1.fallback_signal e);
          [apply call_parse_payload|apply ok_post_throw]. }
    apply (Hp w). destruct (GeminiV1.analyzeFoodImage b m w). simpl in H.
    subst. reflexivity.
  - assert (Hp : ok_post result_is_last_payload
                   (GeminiV1.recalculateMacros JSON_stringify current corr)).
    { unfold GeminiV1.recalculateMacros. apply ok_post_bind. intros [|].
      - apply ok_post_throw.
      - apply ok_post_retry. unfold GeminiV1.recalc_attempt.
        apply ok_post_try_catch; [|intros; apply ok_post_rethrow].
        apply ok_post_bind. intros cur. apply call_parse_payload. }
    apply (Hp w). destruct (GeminiV1.recalculateMacros JSON_stringify current corr w).
    simpl in H. subst. reflexivity.
Qed.

Lemma results_are_unvalidated_payloads_witness :
  fst (GeminiV1.analyzeFoodImage "AAAA" "image/jpeg" w_conf_14) = Ok 0 /\
  result_is_last_payload 0 (snd (GeminiV1.analyzeFoodImage "AAAA" "image/jpeg" w_conf_14)).
Proof.
  assert (H : fst (GeminiV1.analyzeFoodImage "AAAA" "image/jpeg" w_conf_14) = Ok 0)
    by reflexivity.
  split; [exact H|].
  exact (proj1 (results_are_unvalidated_payloads (fun _ => EmptyString)
                  "AAAA" "image/jpeg" 0 EmptyString w_conf_14 0) H).
Defined.

(** C5 fails: a payload with confidence 1.4 comes back with confidence
    1.4, not 1.0. *)
Lemma confidence_1_4_not_clamped :
  exists r it,
    fst (GeminiV1.analyzeFoodImage "AAAA" "image/jpeg" w_conf_14) = Ok 0 /\
    nth_error (heap (snd (GeminiV1.analyzeFoodImage "AAAA" "image/jpeg" w_conf_14)))
      0 = Some r /\
    items r = [it] /\ (confidence it == 14 # 10)%Q /\ ~ (confidence it == 1)%Q.
Proof.
  exists (result_bread (14 # 10)), (bread (14 # 10)).
  vm_compute. repeat split; try reflexivity. discriminate.
Qed.

(* ------------------------------------------------------------------ *)
(** ** Substrings of the correction prompt *)

Lemma prefix_refl s : String.prefix s s = true.
Proof.
  induction s as [|c s IH]; simpl; [reflexivity|].
  destruct (ascii_dec c c); [exact IH|congruence].
Qed.

Lemma prefix_app_r s t u :
  String.prefix s t = true -> String.prefix s (t ++ u)%string = true.
Proof.
  revert t. induction s as [|c s IH]; intros t H; [destruct (t ++ u)%string; reflexivity|].
  destruct t as [|c' t]; simpl in *; [discriminate|].
  destruct (ascii_dec c c'); [apply IH; exact H|discriminate].
Qed.

Lemma includes_prefix sub s : String.prefix sub s = true -> includes sub s = true.
Proof. intros H. destruct s; cbn [includes]; rewrite H; reflexivity. Qed.

Lemma includes_refl s : includes s s = true.
Proof. apply includes_prefix, prefix_refl. Qed.

Lemma includes_app_l sub a b : includes sub b = true -> includes sub (a ++ b)%string = true.
Proof.
  intros H. induction a as [|c a IH]; [exact H|].
  cbn [includes String.append].
  destruct (String.prefix sub (String c (a ++ b)%string)); [reflexivity|exact IH].
Qed.

Lemma includes_app_r sub a b : includes sub a = true -> includes sub (a ++ b)%string = true.
Proof.
  induction a as [|c a IH]; intros H.
  - cbn [includes] in H. destruct sub; [destruct b; reflexivity|discriminate].
  - cbn [includes] in H. destruct (String.prefix sub (String c a)) eqn:P.
    + apply includes_prefix, prefix_app_r, P.
    + cbn [includes String.append].
      destruct (String.prefix sub (String c (a ++ b)%string)); [reflexivity|auto].
Qed.

Ltac find_includes :=
  first [ apply includes_refl
        | apply includes_app_l; find_includes
        | apply includes_app_r; find_includes ].

Lemma recalc_prompt_includes serialized userCorrection :
  includes serialized (GeminiV1.recalc_prompt serialized userCorrection) = true /\
  includes userCorrection (GeminiV1.recalc_prompt serialized userCorrection) = true.
Proof.
  unfold GeminiV1.recalc_prompt. split; find_includes.
Qed.

(* ------------------------------------------------------------------ *)
(** ** Heap and trace effects of [recalculateMacros] *)

Lemma bind_sleep {A} d (k : unit -> M A) w :
  bind (sleep d) k w = k tt (with_log w (log w ++ [Sleep d])).
Proof. reflexivity. Qed.

Lemma frame_retry Pre P {A} (R : A -> list AnalysisResult -> Prop) fn n d :
  frame Pre P R fn ->
  (forall h ext, Pre h -> Pre (h ++ ext)) ->
  (forall a h ext, R a (h ++ ext) -> R a h) ->
  (forall ms, P (Sleep ms)) ->
  frame Pre P R (retryWithBackoff fn n d).
Proof.
  intros Hfn Hpre Hmono HP. revert d.
  induction n as [|n IH]; intros d w Hw; cbn [retryWithBackoff]; unfold try_catch;
    destruct (Hfn w Hw) as (ext & new & Hh & Hl & Hf & Hr);
    destruct (fn w) as [[a|e] w1]; simpl in *.
  - exists ext, new. repeat split; auto.
  - exists ext, new. repeat split; auto.
  - exists ext, new. repeat split; auto.
  - destruct (retry_signal e); simpl.
    + rewrite bind_sleep.
      assert (Hw2 : Pre (heap (with_log w1 (log w1 ++ [Sleep d]))))
        by (simpl; rewrite Hh; auto).
      destruct (IH (d * 2)%Z _ Hw2) as (ext2 & new2 & Hh2 & Hl2 & Hf2 & Hr2).
      simpl in Hh2, Hl2, Hr2. rewrite Hh in Hh2, Hr2.
      exists (ext ++ ext2), (new ++ Sleep d :: new2). repeat split.
      * rewrite Hh2, app_assoc. reflexivity.
      * rewrite Hl2, Hl, <- !app_assoc. reflexivity.
      * apply Forall_app. split; [exact Hf|constructor; auto].
      * intros a Ha. apply Hmono with ext. auto.
    + exists ext, new. repeat split; auto.
Qed.

Lemma frame_recalc_attempt JSON_stringify l corr cur :
  frame (fun h => nth_error h l = Some cur)
        (prompt_event (GeminiV1.recalc_prompt (JSON_stringify cur) corr))
        (fun l' h => length h <= l')
        (GeminiV1.recalc_attempt JSON_stringify l corr).
Proof.
  intros w Hw. unfold GeminiV1.recalc_attempt, try_catch, bind, load.
  rewrite Hw. unfold generateContent, parse_text, JSON_parse, throw.
  cbv zeta.
  destruct (svc w (next w) _) as [e|[[r|msg]|]]; simpl.
  - unfold rethrow_as_Error, throw.
    destruct (message e) as [msg|]; [destruct (String.eqb msg "")|]; simpl;
      exists [], [Call (mkRequest GeminiV1.flashModel
                          (CString (GeminiV1.recalc_prompt (JSON_stringify cur) corr))
                          (mkConfig "application/json" analysisResponseSchema))
                       (RThrow e)];
      repeat split; try (rewrite app_nil_r; reflexivity);
      try (intros a H; discriminate); repeat constructor.
  - eexists [r], _. repeat split.
    + repeat constructor.
    + intros a H. inversion H. lia.
  - unfold rethrow_as_Error, throw. simpl.
    destruct (String.eqb msg "");
      eexists [], _; repeat split; try (rewrite app_nil_r; reflexivity);
      try (intros a H; discriminate); repeat constructor.
  - unfold rethrow_as_Error, throw. simpl.
    eexists [], _; repeat split; try (rewrite app_nil_r; reflexivity);
      try (intros a H; discriminate); repeat constructor.
Qed.

Lemma frame_recalculateMacros JSON_stringify l corr cur :
  frame (fun h => nth_error h l = Some cur)
        (prompt_event (GeminiV1.recalc_prompt (JSON_stringify cur) corr))
        (fun l' h => length h <= l')
        (GeminiV1.recalculateMacros JSON_stringify l corr).
Proof.
  intros w Hw. unfold GeminiV1.recalculateMacros, bind, apiKey_missing.
  destruct (match API_KEY w with
            | Some k => String.eqb k EmptyString
            | None => true end).
  - exists [], []. repeat split; try (rewrite app_nil_r; reflexivity).
    + constructor.
    + intros a H. discriminate.
  - unfold retryWithBackoff_default.
    assert (F : frame (fun h => nth_error h l = Some cur)
                  (prompt_event (GeminiV1.recalc_prompt (JSON_stringify cur) corr))
                  (fun l' h => length h <= l')
                  (retryWithBackoff (GeminiV1.recalc_attempt JSON_stringify l corr)
                     3 1000)); [|exact (F w Hw)].
    apply frame_retry.
    + apply frame_recalc_attempt.
    + intros h ext H. rewrite nth_error_app1; auto.
      apply nth_error_Some. congruence.
    + intros a h ext H. rewrite length_app in H. lia.
    + intros ms. exact I.
Qed.

(** C8: for a prior result [cur] stored at [l] and every correction
    [corr], every call [recalculateMacros] makes carries the prompt
    embedding [JSON.stringify(cur)] and [corr]; the heap is only extended,
    so the prior object (and every other stored object) is left as it
    was; and a successful result is a newly allocated object, at a
    location past every object that existed before the call. *)
Theorem recalculateMacros_fresh_result (JSON_stringify : AnalysisResult -> string)
  (l : loc) (corr : string) (w : World) (cur : AnalysisResult) :
  nth_error (heap w) l = Some cur ->
  let r := GeminiV1.recalculateMacros JSON_stringify l corr w in
  includes (JSON_stringify cur) (GeminiV1.recalc_prompt (JSON_stringify cur) corr) = true /\
  includes corr (GeminiV1.recalc_prompt (JSON_stringify cur) corr) = true /\
  (exists ext new,
     heap (snd r) = heap w ++ ext /\
     log (snd r) = log w ++ new /\
     Forall (prompt_event (GeminiV1.recalc_prompt (JSON_stringify cur) corr)) new) /\
  nth_error (heap (snd r)) l = Some cur /\
  (forall l', fst r = Ok l' -> length (heap w) <= l').
Proof.
  intros Hl r. subst r.
  destruct (recalc_prompt_includes (JSON_stringify cur) corr) as [H1 H2].
  destruct (frame_recalculateMacros JSON_stringify l corr cur w Hl)
    as (ext & new & Hh & Hlog & Hf & Hr).
  split; [exact H1|]. split; [exact H2|]. split.
  - exists ext, new. auto.
  - split.
    + transitivity (nth_error (heap w ++ ext) l);
        [exact (f_equal (fun h => nth_error h l) Hh)|].
      rewrite nth_error_app1; [exact Hl|].
      apply nth_error_Some. congruence.
    + exact Hr.
Qed.

Lemma recalculateMacros_fresh_result_witness :
  nth_error (heap w_stored) 0 = Some (result_bread (8 # 10)) /\
  nth_error (heap (snd (GeminiV1.recalculateMacros summary 0 "убери хлеб"%string w_stored)))
    0 = Some (result_bread (8 # 10)).
Proof.
  assert (H : nth_error (heap w_stored) 0 = Some (result_bread (8 # 10)))
    by reflexivity.
  split; [exact H|].
  exact (proj1 (proj2 (proj2 (proj2
           (recalculateMacros_fresh_result summary 0 "убери хлеб"%string
              w_stored (result_bread (8 # 10)) H))))).
Defined.

(* ------------------------------------------------------------------ *)
(** ** [analyzeFoodText] on the empty description *)

Lemma set_nth_last {A} (l : list A) (x : A) f :
  set_nth (l ++ [x]) (length l) f = l ++ [f x].
Proof. induction l as [|y l IH]; simpl; congruence. Qed.

Lemma text_attempt_post text :
  ok_post (text_result text) (GeminiV3.text_attempt text).
Proof.
  intros w a w' H.
  unfold GeminiV3.text_attempt, bind, generateContent, parse_text, JSON_parse,
    set_modelUsed, ret, throw in H.
  destruct (svc w (next w) _) as [e|[[r|m]|]] eqn:E; simpl in H;
    try discriminate.
  inversion H; subst. exists (log w), r. simpl. rewrite <- E.
  split; [reflexivity|]. rewrite set_nth_last. apply nth_error_last.
Qed.

(** [retryWithBackoff] around an operation making the one call [req], whose
    outcome is the error [err_of_reply] gives for the reply: the trace is
    [retry_trace req reps delay last] with at most [retries] retried
    replies, each failing with a 429 / 503 signal; the outcome is that of
    [last], and a failure before the retries run out has no signal. *)
Lemma retry_trace_spec {A} (fn : M A) (req : Request) (msg : string) :
  (forall w, exists rep,
     log (snd (fn w)) = log w ++ [Call req rep] /\
     match fst (fn w) with
     | Thrown e => err_of_reply rep msg = Some e
     | Ok _ => err_of_reply rep msg = None
     end) ->
  forall n d w, exists reps last,
    length reps <= n /\
    log (snd (retryWithBackoff fn n d w)) = log w ++ retry_trace req reps d last /\
    Forall (fun rep => exists e, err_of_reply rep msg = Some e /\
                                 retry_signal e = true) reps /\
    match fst (retryWithBackoff fn n d w) with
    | Thrown e => err_of_reply last msg = Some e /\
                  (length reps < n -> retry_signal e = false)
    | Ok _ => err_of_reply last msg = None
    end.
Proof.
  intros Hfn n. induction n as [|n IH]; intros d w;
    cbn [retryWithBackoff]; unfold try_catch;
    destruct (Hfn w) as (rep & Hl & Hr);
    destruct (fn w) as [[a|e] w1] eqn:E; simpl in Hl, Hr.
  - exists [], rep. simpl. rewrite Hl. repeat split; auto; lia.
  - exists [], rep. simpl. rewrite Hl. repeat split; auto; lia.
  - exists [], rep. simpl. rewrite Hl. repeat split; auto; lia.
  - destruct (retry_signal e) eqn:Hs.
    + unfold bind, sleep.
      destruct (IH (d * 2)%Z (with_log w1 (log w1 ++ [Sleep d])))
        as (reps & last & Hlen & Hlog & Hall & Hres).
      exists (rep :: reps), last. split; [simpl; lia|]. split.
      { rewrite Hlog. simpl. rewrite Hl, <- !app_assoc. reflexivity. }
      split; [constructor; eauto|].
      revert Hres.
      destruct (retryWithBackoff fn n (d * 2)%Z
                  (with_log w1 (log w1 ++ [Sleep d]))) as [[a'|e'] w2];
        simpl; auto.
      intros [H1 H2]. split; auto. intros. apply H2. lia.
    + exists [], rep. simpl. rewrite Hl. repeat split; auto; lia.
Qed.

(** One run of [GeminiV3.text_attempt text]: one call, with the request
    [text_request text]; the run fails exactly with the error of the
    reply. *)
Lemma text_attempt_one_call text w :
  exists rep,
    log (snd (GeminiV3.text_attempt text w)) =
      log w ++ [Call (text_request text) rep] /\
    match fst (GeminiV3.text_attempt text w) with
    | Thrown e => err_of_reply rep "No response from Gemini"%string = Some e
    | Ok _ => err_of_reply rep "No response from Gemini"%string = None
    end.
Proof.
  exists (svc w (next w) (text_request text)).
  unfold GeminiV3.text_attempt, text_request, bind, generateContent,
    parse_text, JSON_parse, set_modelUsed, ret, throw.
  destruct (svc w (next w) _) as [e|[[r|m]|]]; simpl; auto.
Qed.

(** C9, as the code has it: [analyzeFoodText ""] is not special-cased.
    With no API key (undefined or empty) it rejects with the plain
    [Error("API Key is missing.")] and makes no call.  Otherwise it sends
    [gemini-2.5-flash] the prompt quoting the empty description, under
    [retryWithBackoff] with the defaults: at most 3 retried replies, each
    a failure with status 429 or 503 or a message containing 429, after
    waits of 1000, 2000, 4000 ms; the outcome is that of the last reply,
    and a failure before the retries run out carries no such signal.  A
    success returns the payload the model sent, with only [modelUsed]
    set, so its items are whatever the model returned. *)
Theorem analyzeFoodText_empty_passthrough (w : World) :
  ((API_KEY w = None \/ API_KEY w = Some EmptyString) ->
   GeminiV3.analyzeFoodText EmptyString w =
   (Thrown (new_Error "API Key is missing."%string), w)) /\
  ((exists k, API_KEY w = Some k /\ k <> EmptyString) ->
   exists reps last,
     length reps <= 3 /\
     log (snd (GeminiV3.analyzeFoodText EmptyString w)) =
       log w ++ retry_trace (text_request EmptyString) reps 1000 last /\
     Forall (fun rep => exists e,
               err_of_reply rep "No response from Gemini"%string = Some e /\
               retry_signal e = true) reps /\
     match fst (GeminiV3.analyzeFoodText EmptyString w) with
     | Thrown e => err_of_reply last "No response from Gemini"%string = Some e /\
                   (length reps < 3 -> retry_signal e = false)
     | Ok _ => err_of_reply last "No response from Gemini"%string = None
     end) /\
  (forall l, fst (GeminiV3.analyzeFoodText EmptyString w) = Ok l ->
   text_result EmptyString l (snd (GeminiV3.analyzeFoodText EmptyString w))).
Proof.
  split; [|split].
  - intros [H|H]; unfold GeminiV3.analyzeFoodText, bind, apiKey_missing;
      rewrite H; reflexivity.
  - intros (k & Hk & Hne).
    assert (Hm : GeminiV3.analyzeFoodText EmptyString w =
                 retryWithBackoff_default (GeminiV3.text_attempt EmptyString) w).
    { unfold GeminiV3.analyzeFoodText, bind, apiKey_missing. rewrite Hk.
      destruct (String.eqb_spec k EmptyString); [contradiction|reflexivity]. }
    rewrite Hm. unfold retryWithBackoff_default.
    apply (retry_trace_spec _ (text_request EmptyString)).
    apply text_attempt_one_call.
  - intros l H.
    assert (Hp : ok_post (text_result EmptyString)
                   (GeminiV3.analyzeFoodText EmptyString)).
    { unfold GeminiV3.analyzeFoodText. apply ok_post_bind. intros [|].
      - apply ok_post_throw.
      - apply ok_post_retry, text_attempt_post. }
    apply (Hp w). destruct (GeminiV3.analyzeFoodText EmptyString w).
    simpl in H. subst. reflexivity.
Qed.

Lemma analyzeFoodText_empty_passthrough_witness :
  (exists k, API_KEY w_conf_14 = Some k /\ k <> EmptyString) /\
  (exists reps last,
     length reps <= 3 /\
     log (snd (GeminiV3.analyzeFoodText EmptyString w_conf_14)) =
       log w_conf_14 ++ retry_trace (text_request EmptyString) reps 1000 last /\
     Forall (fun rep => exists e,
               err_of_reply rep "No response from Gemini"%string = Some e /\
               retry_signal e = true) reps /\
     match fst (GeminiV3.analyzeFoodText EmptyString w_conf_14) with
     | Thrown e => err_of_reply last "No response from Gemini"%string = Some e /\
                   (length reps < 3 -> retry_signal e = false)
     | Ok _ => err_of_reply last "No response from Gemini"%string = None
     end) /\
  fst (GeminiV3.analyzeFoodText EmptyString w_conf_14) = Ok 0 /\
  text_result EmptyString 0 (snd (GeminiV3.analyzeFoodText EmptyString w_conf_14)).
Proof.
  assert (Hk : exists k, API_KEY w_conf_14 = Some k /\ k <> EmptyString).
  { exists "key"%string. split; [reflexivity|discriminate]. }
  assert (H : fst (GeminiV3.analyzeFoodText EmptyString w_conf_14) = Ok 0)
    by reflexivity.
  split; [exact Hk|]. split.
  { exact (proj1 (proj2 (analyzeFoodText_empty_passthrough w_conf_14)) Hk). }
  split; [exact H|].
  exact (proj2 (proj2 (analyzeFoodText_empty_passthrough w_conf_14)) 0 H).
Defined.

(** C9 fails: with a model that answers with one item,
    [analyzeFoodText ""] neither rejects nor returns an empty item list. *)
Lemma analyzeFoodText_empty_returns_items :
  ~ ((exists e, fst (GeminiV3.analyzeFoodText EmptyString w_conf_14) = Thrown e) \/
     (exists l r, fst (GeminiV3.analyzeFoodText EmptyString w_conf_14) = Ok l /\
        nth_error (heap (snd (GeminiV3.analyzeFoodText EmptyString w_conf_14))) l
          = Some r /\ items r = [])).
Proof.
  vm_compute. intros [[e H]|(l & r & H1 & H2 & H3)].
  - discriminate.
  - inversion H1; subst. inversion H2; subst. discriminate.
Qed.

(* ------------------------------------------------------------------ *)
(** ** The session state machine *)

(** C1: a failed correction on a session showing a result leaves the
    result in place, returns to RESULT_VIEW and shows the error message. *)
Theorem handleCorrectionSubmit_failure_keeps_result
  (recalc : AnalysisResult -> string -> Res AnalysisResult)
  (s : SessionState) (prev : AnalysisResult) (e : JsErr) :
  appState s = RESULT_VIEW ->
  analysisResult s = Some prev ->
  String.eqb (trim (correctionText s)) EmptyString = false ->
  recalc prev (correctionText s) = Thrown e ->
  fst (handleCorrectionSubmit recalc s) =
    [CallRecalculateMacros prev (correctionText s)] /\
  appState (snd (handleCorrectionSubmit recalc s)) = RESULT_VIEW /\
  analysisResult (snd (handleCorrectionSubmit recalc s)) = Some prev /\
  errorMessage (snd (handleCorrectionSubmit recalc s)) = Some msg_recalc_failed.
Proof.
  intros _ Hr Ht He. unfold handleCorrectionSubmit.
  rewrite Hr, Ht, He. simpl. auto.
Qed.

Lemma handleCorrectionSubmit_failure_keeps_result_witness :
  analysisResult (snd (handleCorrectionSubmit (fun _ _ => Thrown err_429)
                         session_result)) = Some (result_bread (8 # 10)) /\
  errorMessage (snd (handleCorrectionSubmit (fun _ _ => Thrown err_429)
                       session_result)) = Some msg_recalc_failed.
Proof.
  destruct (handleCorrectionSubmit_failure_keeps_result
              (fun _ _ => Thrown err_429) session_result
              (result_bread (8 # 10)) err_429)
    as (_ & _ & H1 & H2); [reflexivity|reflexivity|vm_compute; reflexivity|reflexivity|].
  split; [exact H1|exact H2].
Defined.

(** C6, as the code has it: submitting an image calls [analyzeFoodImage]
    once; a success stores the result and shows RESULT_VIEW; a failure
    shows ERROR with the fixed message [msg_image_failed], and the final
    state is the same whatever the error was. *)
Theorem handleImageSelect_outcome
  (analyze : option string -> string -> Res AnalysisResult)
  (file : File) (s : SessionState) :
  let base64Data := nth_error (split_comma (dataURL file)) 1 in
  fst (handleImageSelect analyze file s) =
    [CallAnalyzeFoodImage base64Data (file_type file)] /\
  selectedImage (snd (handleImageSelect analyze file s)) = Some (dataURL file) /\
  match analyze base64Data (file_type file) with
  | Ok r =>
      appState (snd (handleImageSelect analyze file s)) = RESULT_VIEW /\
      analysisResult (snd (handleImageSelect analyze file s)) = Some r /\
      errorMessage (snd (handleImageSelect analyze file s)) = None
  | Thrown _ =>
      appState (snd (handleImageSelect analyze file s)) = ERROR /\
      errorMessage (snd (handleImageSelect analyze file s)) =
        Some msg_image_failed /\
      forall e', snd (handleImageSelect analyze file s) =
                 snd (handleImageSelect (fun _ _ => Thrown e') file s)
  end.
Proof.
  intros base64Data. unfold handleImageSelect. fold base64Data.
  destruct (analyze base64Data (file_type file)); simpl; auto.
Qed.

(** C6 fails: the state after a failed analysis carries nothing of the
    error, so no reading of it recovers the raw message. *)
Lemma handleImageSelect_drops_error_detail :
  ~ exists detail : SessionState -> option string,
      forall e, detail (snd (handleImageSelect (fun _ _ => Thrown e)
                               file_demo initialSession)) = message e.
Proof.
  intros [detail H].
  pose proof (H (new_Error "a"%string)) as Ha.
  pose proof (H (new_Error "b"%string)) as Hb.
  simpl in Ha, Hb. rewrite Ha in Hb. discriminate.
Qed.

(** C7: [resetApp] returns to IDLE and clears the image, the result, the
    correction text and the error message, from every state. *)
Theorem resetApp_clears (s : SessionState) :
  appState (resetApp s) = IDLE /\
  selectedImage (resetApp s) = None /\
  analysisResult (resetApp s) = None /\
  correctionText (resetApp s) = EmptyString /\
  errorMessage (resetApp s) = None.
Proof. repeat split. Qed.

(* ------------------------------------------------------------------ *)
(** ** White-space-only corrections *)

Lemma prefix_app_cases a b s :
  String.prefix a (b ++ s)%string = true ->
  String.prefix a b = true \/ String.prefix b a = true.
Proof.
  revert b. induction a as [|c a IH]; intros b H.
  - left. destruct b; reflexivity.
  - destruct b as [|c' b]; [right; reflexivity|].
    simpl in H. destruct (ascii_dec c c') as [<-|]; [|discriminate].
    simpl. destruct (ascii_dec c c); [|congruence]. auto.
Qed.

Lemma js_ws_prefix_free_b :
  forallb (fun w => forallb (fun w' =>
    String.eqb w' w || (negb (String.prefix w' w) && negb (String.prefix w w')))
    js_ws) js_ws = true.
Proof. vm_compute. reflexivity. Qed.

Lemma js_ws_prefix_free w w' :
  In w js_ws -> In w' js_ws ->
  w' = w \/ (String.prefix w' w = false /\ String.prefix w w' = false).
Proof.
  intros Hw Hw'. pose proof js_ws_prefix_free_b as H.
  rewrite forallb_forall in H. specialize (H w Hw).
  rewrite forallb_forall in H. specialize (H w' Hw').
  apply orb_true_iff in H. destruct H as [H|H].
  - left. apply String.eqb_eq. exact H.
  - right. apply andb_true_iff in H. destruct H as [H1 H2].
    apply negb_true_iff in H1, H2. auto.
Qed.

Lemma str_drop_app w s : str_drop (String.length w) (w ++ s)%string = s.
Proof. induction w; simpl; auto. Qed.

Lemma strip_one_app ws w s :
  (forall w', In w' ws ->
     w' = w \/ (String.prefix w' w = false /\ String.prefix w w' = false)) ->
  In w ws -> strip_one ws (w ++ s)%string = Some s.
Proof.
  induction ws as [|w0 ws IH]; intros Hpf Hin; [destruct Hin|].
  simpl. destruct (String.prefix w0 (w ++ s)%string) eqn:P.
  - destruct (Hpf w0 (or_introl eq_refl)) as [->|[H1 H2]].
    + rewrite str_drop_app. reflexivity.
    + destruct (prefix_app_cases _ _ _ P); congruence.
  - destruct Hin as [->|Hin].
    + rewrite prefix_app_r in P; [discriminate|apply prefix_refl].
    + apply IH; [|exact Hin]. intros w' Hw'. apply Hpf. right. exact Hw'.
Qed.

Lemma trim_start_concat ws n :
  Forall (fun w => In w js_ws) ws -> length ws <= n ->
  trim_start_fuel js_ws n (concat_str ws) = EmptyString.
Proof.
  revert n. induction ws as [|w ws IH]; intros n HF Hn.
  - destruct n; reflexivity.
  - destruct n as [|n]; [simpl in Hn; lia|].
    inversion HF as [|? ? Hw HF']; subst.
    change (concat_str (w :: ws)) with (w ++ concat_str ws)%string.
    cbn [trim_start_fuel].
    rewrite strip_one_app; [apply IH; auto; simpl in Hn; lia| |exact Hw].
    intros w' Hw'. apply js_ws_prefix_free; auto.
Qed.

Lemma length_append_str a b :
  String.length (a ++ b)%string = String.length a + String.length b.
Proof. induction a; simpl; auto. Qed.

Lemma js_ws_nonempty w : In w js_ws -> 1 <= String.length w.
Proof.
  intros H.
  assert (B : forallb (fun w => Nat.leb 1 (String.length w)) js_ws = true)
    by (vm_compute; reflexivity).
  rewrite forallb_forall in B. apply Nat.leb_le, B, H.
Qed.

Lemma concat_length ws :
  Forall (fun w => In w js_ws) ws -> length ws <= String.length (concat_str ws).
Proof.
  induction 1 as [|w ws Hw HF IH]; [simpl; lia|].
  change (concat_str (w :: ws)) with (w ++ concat_str ws)%string.
  rewrite length_append_str. apply js_ws_nonempty in Hw. simpl. lia.
Qed.

Lemma ws_only_trim s : ws_only s -> trim s = EmptyString.
Proof.
  intros (ws & HF & ->). unfold trim, trim_start. cbv zeta.
  rewrite trim_start_concat; auto using concat_length.
Qed.

(** C10: a correction submitted while the text is empty or white space
    only, or while no result is stored, makes no call and leaves the
    session unchanged. *)
Theorem handleCorrectionSubmit_guard
  (recalc : AnalysisResult -> string -> Res AnalysisResult) (s : SessionState) :
  ws_only (correctionText s) \/ analysisResult s = None ->
  handleCorrectionSubmit recalc s = ([], s).
Proof.
  intros [H|H]; unfold handleCorrectionSubmit.
  - rewrite (ws_only_trim _ H). destruct (analysisResult s); reflexivity.
  - rewrite H. reflexivity.
Qed.

Lemma handleCorrectionSubmit_guard_witness :
  handleCorrectionSubmit (fun _ _ => Thrown err_429) session_blank =
  ([], session_blank).
Proof.
  apply handleCorrectionSubmit_guard. left.
  exists [bytes [32]%nat; bytes [9]%nat; bytes [194; 160]%nat]. split.
  - repeat (apply Forall_cons;
              [vm_compute; repeat (first [left; reflexivity|right])|]).
    apply Forall_nil.
  - reflexivity.
Defined.

(* ================================================================== *)
(** * Further properties of the code *)

(** ** The API key guard *)

(** With [process.env.API_KEY] undefined or empty, each service of the
    first and third versions rejects at once with its own message: no
    request is sent and the world is left as it was. *)
Theorem services_reject_without_key (w : World)
  (JSON_stringify : AnalysisResult -> string)
  (b mt corr text : string) (l : loc) :
  API_KEY w = None \/ API_KEY w = Some EmptyString ->
  GeminiV1.analyzeFoodImage b mt w =
    (Thrown (new_Error "API Key is missing in the application configuration."%string), w) /\
  GeminiV1.recalculateMacros JSON_stringify l corr w =
    (Thrown (new_Error "API Key is missing."%string), w) /\
  GeminiV3.analyzeFoodImage b mt w =
    (Thrown (new_Error "API Key is missing in the application configuration."%string), w) /\
  GeminiV3.recalculateMacros JSON_stringify l corr w =
    (Thrown (new_Error "API Key is missing."%string), w) /\
  GeminiV3.analyzeFoodText text w =
    (Thrown (new_Error "API Key is missing."%string), w).
Proof.
  intros H.
  unfold GeminiV1.analyzeFoodImage, GeminiV1.recalculateMacros,
    GeminiV3.analyzeFoodImage, GeminiV3.recalculateMacros,
    GeminiV3.analyzeFoodText, bind, apiKey_missing.
  destruct H as [H|H]; rewrite H; repeat split.
Qed.

Lemma services_reject_without_key_witness :
  GeminiV1.analyzeFoodImage "AAAA" "image/jpeg" w_no_key =
    (Thrown (new_Error "API Key is missing in the application configuration."%string),
     w_no_key).
Proof.
  exact (proj1 (services_reject_without_key w_no_key (fun _ => EmptyString)
                  "AAAA" "image/jpeg" EmptyString EmptyString 0
                  (or_introl eq_refl))).
Defined.

(** ** The first version's [recalculateMacros] drops the status *)

Lemma rethrow_as_Error_throw {A} e d w :
  @rethrow_as_Error A e d w = (Thrown (new_Error (message_or e d)), w).
Proof.
  unfold rethrow_as_Error, message_or.
  destruct (message e) as [m|]; [destruct (String.eqb m EmptyString)|]; reflexivity.
Qed.

(** The closure of [recalculateMacros] rethrows every failure as
    [new Error(error.message || "Recalculation failed")], which carries no
    status.  So when the first call fails with an error whose message does
    not contain 429 (a 503 "Service Unavailable", or even a 429 "Too Many
    Requests"), no retry follows: one call is made and the function
    rejects with the plain [Error]. *)
Theorem recalculateMacros_v1_no_retry_without_429_text
  (JSON_stringify : AnalysisResult -> string) (l : loc) (corr : string)
  (w : World) (cur : AnalysisResult) (e : JsErr) (k : string) :
  API_KEY w = Some k -> String.eqb k EmptyString = false ->
  nth_error (heap w) l = Some cur ->
  svc w (next w)
      (mkRequest GeminiV1.flashModel
         (CString (GeminiV1.recalc_prompt (JSON_stringify cur) corr))
         (mkConfig "application/json" analysisResponseSchema)) = RThrow e ->
  includes "429" (message_or e "Recalculation failed") = false ->
  GeminiV1.recalculateMacros JSON_stringify l corr w =
    (Thrown (new_Error (message_or e "Recalculation failed")),
     after_call w
       (mkRequest GeminiV1.flashModel
          (CString (GeminiV1.recalc_prompt (JSON_stringify cur) corr))
          (mkConfig "application/json" analysisResponseSchema))
       (RThrow e)).
Proof.
  intros Hk Hk' Hl Hs H429.
  unfold GeminiV1.recalculateMacros, bind at 1, apiKey_missing.
  rewrite Hk, Hk'. unfold retryWithBackoff_default. cbn [retryWithBackoff].
  unfold try_catch at 1.
  unfold GeminiV1.recalc_attempt, try_catch, bind, load.
  rewrite Hl. unfold generateContent. cbv zeta. rewrite Hs.
  rewrite rethrow_as_Error_throw.
  unfold retry_signal, status_is, message_includes. simpl. rewrite H429.
  reflexivity.
Qed.

Lemma recalculateMacros_v1_no_retry_without_429_text_witness :
  fst (GeminiV1.recalculateMacros (fun _ => EmptyString) 0 "убери хлеб"%string
         (stored_with err_429)) =
    Thrown (new_Error "Too Many Requests"%string).
Proof.
  rewrite (recalculateMacros_v1_no_retry_without_429_text (fun _ => EmptyString) 0
             "убери хлеб"%string (stored_with err_429) (result_bread (8 # 10))
             err_429 "key"%string);
    try reflexivity.
Defined.

(** ** The third version's [recalculateMacros] falls back on 403/404 only *)

(** A Pro failure that names neither 403 nor 404, in its status or its
    message, is not a fallback signal for [recalculateMacros] (a bare
    [PERMISSION_DENIED] message is one for [analyzeFoodImage]); if it is
    no retry signal either, the function rejects with that same error
    after the single Pro call. *)
Theorem recalculateMacros_v3_no_fallback
  (JSON_stringify : AnalysisResult -> string) (l : loc) (corr : string)
  (w : World) (cur : AnalysisResult) (e : JsErr) (k : string) :
  API_KEY w = Some k -> String.eqb k EmptyString = false ->
  nth_error (heap w) l = Some cur ->
  svc w (next w)
      (mkRequest GeminiV1.proModel
         (CString (GeminiV3.recalc_prompt (JSON_stringify cur) corr))
         GeminiV3.configPart) = RThrow e ->
  GeminiV3.recalc_fallback_signal e = false ->
  retry_signal e = false ->
  GeminiV3.recalculateMacros JSON_stringify l corr w =
    (Thrown e,
     after_call w
       (mkRequest GeminiV1.proModel
          (CString (GeminiV3.recalc_prompt (JSON_stringify cur) corr))
          GeminiV3.configPart)
       (RThrow e)).
Proof.
  intros Hk Hk' Hl Hs Hf Hr.
  unfold GeminiV3.recalculateMacros, bind at 1, apiKey_missing.
  rewrite Hk, Hk'. unfold bind at 1, load. rewrite Hl. cbv zeta.
  unfold retryWithBackoff_default. cbn [retryWithBackoff].
  unfold try_catch at 1.
  unfold GeminiV3.recalc_attempt, try_catch, bind, generateContent.
  rewrite Hs, Hf. unfold throw. rewrite Hr. reflexivity.
Qed.

Lemma recalculateMacros_v3_no_fallback_witness :
  GeminiV1.fallback_signal err_pd = true /\
  fst (GeminiV3.recalculateMacros (fun _ => EmptyString) 0 "убери хлеб"%string
         (stored_with err_pd)) = Thrown err_pd.
Proof.
  split; [reflexivity|].
  rewrite (recalculateMacros_v3_no_fallback (fun _ => EmptyString) 0
             "убери хлеб"%string (stored_with err_pd) (result_bread (8 # 10))
             err_pd "key"%string);
    try reflexivity.
Defined.

(** ** The third version labels each result with its tier *)

Lemma call_parse_label req msg nm :
  (model req = GeminiV1.proModel /\ nm = "Gemini 3.0 Pro"%string) \/
  (model req = GeminiV1.flashModel /\ nm = "Gemini 2.5 Flash"%string) ->
  ok_post labelled_result
    (text <- generateContent req ;;
     result <- parse_text text msg ;;
     _ <- set_modelUsed result nm ;;
     ret result).
Proof.
  intros Hm w a w' H. unfold bind, generateContent in H.
  destruct (svc w (next w) req) as [e|[[r|m]|]] eqn:Hs; simpl in H;
    try discriminate.
  inversion H; subst; clear H.
  exists (log w), req, r. cbn [log heap]. rewrite set_nth_last.
  split; [reflexivity|]. split; [destruct Hm as [[Hm _]|[Hm _]]; auto|].
  rewrite nth_error_last.
  destruct Hm as [[Hm Hn]|[Hm Hn]]; rewrite Hm, Hn; reflexivity.
Qed.

Lemma v3_attempt_labelled b m :
  ok_post labelled_result (GeminiV3.attempt b m).
Proof.
  unfold GeminiV3.attempt. apply ok_post_try_catch.
  - apply call_parse_label. left. split; reflexivity.
  - intros e. destruct (GeminiV1.fallback_signal e); [|apply ok_post_throw].
    apply call_parse_label. right. split; reflexivity.
Qed.

Lemma v3_recalc_attempt_labelled prompt :
  ok_post labelled_result (GeminiV3.recalc_attempt prompt).
Proof.
  unfold GeminiV3.recalc_attempt. apply ok_post_try_catch.
  - apply call_parse_label. left. split; reflexivity.
  - intros e. destruct (GeminiV3.recalc_fallback_signal e); [|apply ok_post_throw].
    apply call_parse_label. right. split; reflexivity.
Qed.

(** In the third version a successful [analyzeFoodImage] or
    [recalculateMacros] returns the payload of the last call's reply with
    [modelUsed] set to the tier that call went to: "Gemini 3.0 Pro" when
    it was the Pro model, "Gemini 2.5 Flash" when it was the Flash model,
    whatever happened in the attempts before. *)
Theorem v3_results_labelled_by_tier
  (JSON_stringify : AnalysisResult -> string) (b m : string) (l : loc)
  (corr : string) :
  ok_post labelled_result (GeminiV3.analyzeFoodImage b m) /\
  ok_post labelled_result (GeminiV3.recalculateMacros JSON_stringify l corr).
Proof.
  split.
  - unfold GeminiV3.analyzeFoodImage. apply ok_post_bind. intros [|].
    + apply ok_post_throw.
    + apply ok_post_retry, v3_attempt_labelled.
  - unfold GeminiV3.recalculateMacros. apply ok_post_bind. intros [|].
    + apply ok_post_throw.
    + apply ok_post_bind. intros cur. apply ok_post_retry,
        v3_recalc_attempt_labelled.
Qed.

(** ** [getConfidenceStyle] *)

Lemma style_rank_getConfidenceStyle s :
  style_rank (getConfidenceStyle s) =
  if Qle_bool (8 # 10) s then 2 else if Qle_bool (5 # 10) s then 1 else 0.
Proof.
  unfold getConfidenceStyle.
  destruct (Qle_bool (8 # 10) s); [reflexivity|].
  destruct (Qle_bool (5 # 10) s); reflexivity.
Qed.

(** The badge never gets worse as the score grows: red below 0.5, yellow
    from 0.5, green from 0.8. *)
Theorem getConfidenceStyle_monotone (s1 s2 : Q) :
  (s1 <= s2)%Q ->
  style_rank (getConfidenceStyle s1) <= style_rank (getConfidenceStyle s2).
Proof.
  intros H. rewrite !style_rank_getConfidenceStyle.
  destruct (Qle_bool (8 # 10) s1) eqn:A1;
  destruct (Qle_bool (8 # 10) s2) eqn:A2;
  destruct (Qle_bool (5 # 10) s1) eqn:B1;
  destruct (Qle_bool (5 # 10) s2) eqn:B2; try lia;
  rewrite ?Qle_bool_iff in *;
  repeat match goal with
         | E : Qle_bool _ _ = false |- _ =>
             apply Bool.not_true_iff_false in E; rewrite Qle_bool_iff in E
         end;
  exfalso; lra.
Qed.

Lemma getConfidenceStyle_monotone_witness :
  style_rank (getConfidenceStyle (79 # 100)) <=
  style_rank (getConfidenceStyle (8 # 10)).
Proof. apply getConfidenceStyle_monotone. vm_compute. discriminate. Defined.

(** For a score in [0, 1] the badge reads a whole percentage from 0% to
    100%, followed by the sign %. *)
Theorem getConfidenceStyle_label_range (s : Q) :
  (0 <= s <= 1)%Q ->
  exists p, (0 <= p <= 100)%Z /\
    label (getConfidenceStyle s) = (z_to_string p ++ "%")%string.
Proof.
  intros Hs. exists (math_round (s * 100)). split.
  - unfold math_round. split.
    + change 0%Z with (Qfloor 0). apply Qfloor_resp_le. lra.
    + apply Z.le_trans with (Qfloor (201 # 2));
        [apply Qfloor_resp_le; lra|vm_compute; discriminate].
  - unfold getConfidenceStyle.
    destruct (Qle_bool (8 # 10) s); [reflexivity|].
    destruct (Qle_bool (5 # 10) s); reflexivity.
Qed.

Lemma getConfidenceStyle_label_range_witness :
  exists p, (0 <= p <= 100)%Z /\
    label (getConfidenceStyle (3 # 4)) = (z_to_string p ++ "%")%string.
Proof. apply getConfidenceStyle_label_range. split; vm_compute; discriminate. Defined.

(** ** The error banner of [App] *)

(** The two outcomes of a submitted correction. *)
Lemma handleCorrectionSubmit_fails recalc s prev e :
  analysisResult s = Some prev ->
  String.eqb (trim (correctionText s)) EmptyString = false ->
  recalc prev (correctionText s) = Thrown e ->
  handleCorrectionSubmit recalc s =
    ([CallRecalculateMacros prev (correctionText s)],
     setAppState RESULT_VIEW (setErrorMessage (Some msg_recalc_failed)
       (setLoadingMessage "Пересчитываю КБЖУ с учетом правок..."%string
          (setAppState PROCESSING_CORRECTION s)))).
Proof.
  intros Hr Ht He. unfold handleCorrectionSubmit. rewrite Hr, Ht, He.
  reflexivity.
Qed.

Lemma handleCorrectionSubmit_succeeds recalc s prev r :
  analysisResult s = Some prev ->
  String.eqb (trim (correctionText s)) EmptyString = false ->
  recalc prev (correctionText s) = Ok r ->
  handleCorrectionSubmit recalc s =
    ([CallRecalculateMacros prev (correctionText s)],
     setAppState RESULT_VIEW (setCorrectionText EmptyString
       (setAnalysisResult (Some r)
          (setLoadingMessage "Пересчитываю КБЖУ с учетом правок..."%string
             (setAppState PROCESSING_CORRECTION s))))).
Proof.
  intros Hr Ht He. unfold handleCorrectionSubmit. rewrite Hr, Ht, He.
  reflexivity.
Qed.

(** X7: [handleCorrectionSubmit] of [App.tsx] never clears
    [errorMessage]: the banner is the one before, or the banner of a
    failed recalculation.  A successful recalculation leaves the banner
    as it was, so a banner left by any earlier failure (an image, a
    correction or a transcription) stays on screen; a failure sets its
    own banner and keeps the correction text. *)
Theorem handleCorrectionSubmit_never_clears_error
  (recalc : AnalysisResult -> string -> Res AnalysisResult)
  (s : SessionState) :
  (errorMessage (snd (handleCorrectionSubmit recalc s)) = errorMessage s \/
   errorMessage (snd (handleCorrectionSubmit recalc s)) =
     Some msg_recalc_failed) /\
  (forall prev r, analysisResult s = Some prev ->
     recalc prev (correctionText s) = Ok r ->
     errorMessage (snd (handleCorrectionSubmit recalc s)) = errorMessage s) /\
  (forall prev e, analysisResult s = Some prev ->
     String.eqb (trim (correctionText s)) EmptyString = false ->
     recalc prev (correctionText s) = Thrown e ->
     errorMessage (snd (handleCorrectionSubmit recalc s)) =
       Some msg_recalc_failed /\
     correctionText (snd (handleCorrectionSubmit recalc s)) = correctionText s).
Proof.
  destruct (analysisResult s) as [prev|] eqn:Hr.
  - destruct (String.eqb (trim (correctionText s)) EmptyString) eqn:Ht.
    + assert (Hb : handleCorrectionSubmit recalc s = ([], s)).
      { unfold handleCorrectionSubmit. rewrite Hr, Ht. reflexivity. }
      rewrite Hb. cbn [snd]. split; [left; reflexivity|].
      split; [reflexivity|]. intros p e Hp Hf. discriminate.
    + destruct (recalc prev (correctionText s)) as [r|e] eqn:He.
      * rewrite (handleCorrectionSubmit_succeeds recalc s prev r Hr Ht He).
        cbn [snd]. split; [left; reflexivity|].
        split; [reflexivity|]. intros p e Hp _ Hf.
        injection Hp as Hp. subst p. congruence.
      * rewrite (handleCorrectionSubmit_fails recalc s prev e Hr Ht He).
        cbn [snd]. split; [right; reflexivity|].
        split; [intros p r Hp Hs; injection Hp as Hp; subst p; congruence|].
        intros. split; reflexivity.
  - assert (Hb : handleCorrectionSubmit recalc s = ([], s)).
    { unfold handleCorrectionSubmit. rewrite Hr. reflexivity. }
    rewrite Hb. cbn [snd]. split; [left; reflexivity|].
    split; [reflexivity|]. intros p e Hp. discriminate.
Qed.

Lemma handleCorrectionSubmit_never_clears_error_witness :
  let s0 := handleAudioCorrection (fun _ : unit => Thrown err_429) tt
              session_result in
  errorMessage s0 = Some msg_speech_failed /\
  errorMessage (snd (handleCorrectionSubmit (fun r _ => Ok r) s0)) =
    Some msg_speech_failed.
Proof.
  intros s0.
  assert (H0 : errorMessage s0 = Some msg_speech_failed) by reflexivity.
  split; [exact H0|]. rewrite <- H0.
  apply (proj1 (proj2 (handleCorrectionSubmit_never_clears_error
                         (fun r _ => Ok r) s0))
           (result_bread (8 # 10)) (result_bread (8 # 10)));
    reflexivity.
Defined.

(** ** Calls and waits of a run *)

Lemma cam_weaken {A} k k' (m : M A) :
  k <= k' -> calls_at_most k m -> calls_at_most k' m.
Proof.
  intros Hk H w. destruct (H w) as (new & L & C & S).
  exists new. repeat split; auto; lia.
Qed.

Lemma cam_ret {A} (a : A) : calls_at_most 0 (ret a).
Proof. intros w. exists []. rewrite app_nil_r. auto. Qed.

Lemma cam_throw {A} e : calls_at_most 0 (@throw A e).
Proof. intros w. exists []. rewrite app_nil_r. auto. Qed.

Lemma cam_generateContent req : calls_at_most 1 (generateContent req).
Proof.
  intros w. exists [Call req (svc w (next w) req)].
  unfold generateContent. destruct (svc w (next w) req); simpl; auto.
Qed.

Lemma cam_parse_text t msg : calls_at_most 0 (parse_text t msg).
Proof.
  intros w. exists []. rewrite app_nil_r.
  destruct t as [[r|m]|]; simpl; auto.
Qed.

Lemma cam_set_modelUsed l nm : calls_at_most 0 (set_modelUsed l nm).
Proof. intros w. exists []. rewrite app_nil_r. simpl. auto. Qed.

Lemma cam_load l : calls_at_most 0 (load l).
Proof.
  intros w. exists []. rewrite app_nil_r. unfold load.
  destruct (nth_error (heap w) l); simpl; auto.
Qed.

Lemma cam_apiKey_missing : calls_at_most 0 apiKey_missing.
Proof. intros w. exists []. rewrite app_nil_r. simpl. auto. Qed.

Lemma cam_rethrow {A} e d : calls_at_most 0 (@rethrow_as_Error A e d).
Proof.
  intros w. exists []. rewrite app_nil_r. rewrite rethrow_as_Error_throw.
  simpl. auto.
Qed.

Lemma cam_bind {A B} k1 k2 (m : M A) (f : A -> M B) :
  calls_at_most k1 m -> (forall x, calls_at_most k2 (f x)) ->
  calls_at_most (k1 + k2) (bind m f).
Proof.
  intros H1 H2 w. destruct (H1 w) as (n1 & L1 & C1 & S1). unfold bind.
  destruct (m w) as [[a|e] w1]; simpl in L1 |- *.
  - destruct (H2 a w1) as (n2 & L2 & C2 & S2). exists (n1 ++ n2).
    rewrite L2, L1, app_assoc, calls_of_app, sleeps_of_app, S1, S2, length_app.
    repeat split; auto; lia.
  - exists n1. repeat split; auto; lia.
Qed.

Lemma cam_try_catch {A} k1 k2 (m : M A) h :
  calls_at_most k1 m -> (forall e, calls_at_most k2 (h e)) ->
  calls_at_most (k1 + k2) (try_catch m h).
Proof.
  intros H1 H2 w. destruct (H1 w) as (n1 & L1 & C1 & S1). unfold try_catch.
  destruct (m w) as [[a|e] w1]; simpl in L1 |- *.
  - exists n1. repeat split; auto; lia.
  - destruct (H2 e w1) as (n2 & L2 & C2 & S2). exists (n1 ++ n2).
    rewrite L2, L1, app_assoc, calls_of_app, sleeps_of_app, S1, S2, length_app.
    repeat split; auto; lia.
Qed.

Lemma cam_if {A} k1 k2 (b : bool) (m1 m2 : M A) :
  calls_at_most k1 m1 -> calls_at_most k2 m2 ->
  calls_at_most (Nat.max k1 k2) (if b then m1 else m2).
Proof.
  intros H1 H2. destruct b; [apply (cam_weaken k1)|apply (cam_weaken k2)];
    auto; lia.
Qed.

Ltac cam_solve :=
  cbv beta zeta;
  lazymatch goal with
  | |- calls_at_most _ (bind _ _) =>
      eapply cam_bind; [cam_solve|intros; cam_solve]
  | |- calls_at_most _ (try_catch _ _) =>
      eapply cam_try_catch; [cam_solve|intros; cam_solve]
  | |- calls_at_most _ (if _ then _ else _) =>
      eapply cam_if; [cam_solve|cam_solve]
  | |- calls_at_most _ (generateContent _) => apply cam_generateContent
  | |- calls_at_most _ (parse_text _ _) => apply cam_parse_text
  | |- calls_at_most _ (set_modelUsed _ _) => apply cam_set_modelUsed
  | |- calls_at_most _ (ret _) => apply cam_ret
  | |- calls_at_most _ (throw _) => apply cam_throw
  | |- calls_at_most _ (load _) => apply cam_load
  | |- calls_at_most _ (rethrow_as_Error _ _) => apply cam_rethrow
  | |- calls_at_most _ apiKey_missing => apply cam_apiKey_missing
  end.

Ltac cam_bound := eapply cam_weaken; [|cam_solve]; simpl; lia.

Lemma v1_attempt_calls b m : calls_at_most 2 (GeminiV1.attempt b m).
Proof. unfold GeminiV1.attempt. cam_bound. Qed.

Lemma v1_recalc_attempt_calls JSON_stringify l corr :
  calls_at_most 1 (GeminiV1.recalc_attempt JSON_stringify l corr).
Proof. unfold GeminiV1.recalc_attempt. cam_bound. Qed.

Lemma v3_attempt_calls b m : calls_at_most 2 (GeminiV3.attempt b m).
Proof. unfold GeminiV3.attempt. cam_bound. Qed.

Lemma v3_recalc_attempt_calls prompt :
  calls_at_most 2 (GeminiV3.recalc_attempt prompt).
Proof. unfold GeminiV3.recalc_attempt. cam_bound. Qed.

Lemma v3_text_attempt_calls text :
  calls_at_most 1 (GeminiV3.text_attempt text).
Proof. unfold GeminiV3.text_attempt. cam_bound. Qed.

Lemma retry_bound_core {A} (fn : M A) (k n : nat) (d : Z) :
  calls_at_most k fn -> (0 <= d)%Z ->
  forall w, exists new,
    log (snd (retryWithBackoff fn n d w)) = log w ++ new /\
    length (calls_of new) <= S n * k /\
    length (sleeps_of new) <= n /\
    (sum_Z (sleeps_of new) <= d * (2 ^ Z.of_nat n - 1))%Z.
Proof.
  intros Hk. revert d. induction n as [|n IH]; intros d Hd w;
    cbn [retryWithBackoff]; unfold try_catch;
    destruct (Hk w) as (new & L & C & S);
    try (assert (P : (0 < 2 ^ Z.of_nat n)%Z) by (apply Z.pow_pos_nonneg; lia));
    destruct (fn w) as [[a|e] w1]; simpl in L.
  - exists new. rewrite S. simpl. repeat split; auto; lia.
  - exists new. rewrite S. simpl. repeat split; auto; lia.
  - exists new. rewrite S. rewrite Nat2Z.inj_succ, Z.pow_succ_r by lia.
    remember (2 ^ Z.of_nat n)%Z as X. cbn [fst snd sum_Z fold_right length].
    repeat split; auto; nia.
  - rewrite Nat2Z.inj_succ, Z.pow_succ_r by lia.
    remember (2 ^ Z.of_nat n)%Z as X.
    destruct (retry_signal e).
    + unfold bind, sleep.
      destruct (IH (d * 2)%Z ltac:(lia) (with_log w1 (log w1 ++ [Sleep d])))
        as (new2 & L2 & C2 & S2 & T2).
      exists (new ++ Sleep d :: new2). cbn [log with_log] in L2.
      rewrite L2, L, <- app_assoc, calls_of_app, sleeps_of_app, S.
      cbn [calls_of sleeps_of app length]. rewrite length_app.
      repeat split; [rewrite <- app_assoc; reflexivity|lia|lia|].
      unfold sum_Z in *. cbn [fold_right]. nia.
    + exists new. rewrite S. cbn [fst snd sum_Z fold_right length].
      repeat split; auto; nia.
Qed.

(** [retryWithBackoff fn retries delay] with a [delay >= 0], around an
    operation that makes at most [k] calls and never waits, makes at most
    [(retries + 1) * k] calls and at most [retries] waits, of
    [delay * (2 ^ retries - 1)] milliseconds in all. *)
Theorem retryWithBackoff_bounded {A} (fn : M A) (k retries : nat) (delay : Z)
  (w : World) :
  calls_at_most k fn -> (0 <= delay)%Z ->
  exists new,
    log (snd (retryWithBackoff fn retries delay w)) = log w ++ new /\
    length (calls_of new) <= S retries * k /\
    length (sleeps_of new) <= retries /\
    (sum_Z (sleeps_of new) <= delay * (2 ^ Z.of_nat retries - 1))%Z.
Proof. intros Hk Hd. exact (retry_bound_core fn k retries delay Hk Hd w). Qed.

Lemma retryWithBackoff_bounded_witness :
  exists new,
    log (snd (retryWithBackoff (GeminiV1.attempt "AAAA" "image/jpeg") 3 1000
                w_all_429)) = log w_all_429 ++ new /\
    length (calls_of new) <= 4 * 2 /\
    length (sleeps_of new) <= 3 /\
    (sum_Z (sleeps_of new) <= 1000 * (2 ^ Z.of_nat 3 - 1))%Z.
Proof.
  apply (retryWithBackoff_bounded (GeminiV1.attempt "AAAA" "image/jpeg") 2 3
           1000 w_all_429).
  - unfold GeminiV1.attempt. cam_bound.
  - lia.
Defined.

Lemma budget_default {A} (fn : M A) k :
  calls_at_most k fn -> within_budget (4 * k) 7000 (retryWithBackoff_default fn).
Proof.
  intros Hk w. destruct (retry_bound_core fn k 3 1000 Hk ltac:(lia) w)
    as (new & L & C & _ & T).
  exists new. repeat split; auto.
Qed.

Lemma budget_bind0 {A B} c ms (m : M A) (f : A -> M B) :
  calls_at_most 0 m -> (forall x, within_budget c ms (f x)) ->
  (0 <= ms)%Z -> within_budget c ms (bind m f).
Proof.
  intros H1 H2 Hms w. destruct (H1 w) as (n1 & L1 & C1 & S1). unfold bind.
  destruct (m w) as [[a|e] w1]; simpl in L1 |- *.
  - destruct (H2 a w1) as (n2 & L2 & C2 & T2). exists (n1 ++ n2).
    rewrite L2, L1, app_assoc, calls_of_app, sleeps_of_app, S1, length_app.
    destruct n1 as [|[] n1]; simpl in C1, S1 |- *; try discriminate; [|lia].
    repeat split; auto.
  - exists n1. rewrite S1. simpl. repeat split; auto; lia.
Qed.

Lemma budget_throw {A} c ms e : (0 <= ms)%Z -> within_budget c ms (@throw A e).
Proof.
  intros Hms w. exists []. rewrite app_nil_r. simpl. repeat split; auto; lia.
Qed.

(** Whatever the service answers, one run of a service function makes at
    most 8 calls ([analyzeFoodImage] of both versions and [recalculateMacros]
    of the third: four attempts of at most two calls) or 4 calls (the
    single-model [recalculateMacros] of the first version and
    [analyzeFoodText]), and waits at most 1 + 2 + 4 = 7 seconds in all. *)
Theorem services_call_budget (JSON_stringify : AnalysisResult -> string)
  (b m : string) (l : loc) (corr text : string) :
  within_budget 8 7000 (GeminiV1.analyzeFoodImage b m) /\
  within_budget 4 7000 (GeminiV1.recalculateMacros JSON_stringify l corr) /\
  within_budget 8 7000 (GeminiV3.analyzeFoodImage b m) /\
  within_budget 8 7000 (GeminiV3.recalculateMacros JSON_stringify l corr) /\
  within_budget 4 7000 (GeminiV3.analyzeFoodText text).
Proof.
  unfold GeminiV1.analyzeFoodImage, GeminiV1.recalculateMacros,
    GeminiV3.analyzeFoodImage, GeminiV3.recalculateMacros,
    GeminiV3.analyzeFoodText.
  repeat split; apply budget_bind0; try apply cam_apiKey_missing; try lia;
    intros [|]; try (apply budget_throw; lia).
  - apply (budget_default _ 2), v1_attempt_calls.
  - apply (budget_default _ 1), v1_recalc_attempt_calls.
  - apply (budget_default _ 2), v3_attempt_calls.
  - apply budget_bind0; [apply cam_load| |lia]. intros cur.
    apply (budget_default _ 2), v3_recalc_attempt_calls.
  - apply (budget_default _ 1), v3_text_attempt_calls.
Qed.

(** ** Errors when every call fails *)

Lemma retry_always_throws {A} (fn : M A) (I : World -> Prop) (e : JsErr) :
  (forall w l, I w -> I (with_log w l)) ->
  (forall w, I w -> fst (fn w) = Thrown e /\ I (snd (fn w))) ->
  forall n d w, I w ->
    fst (retryWithBackoff fn n d w) = Thrown e /\
    I (snd (retryWithBackoff fn n d w)).
Proof.
  intros HI Hfn n. induction n as [|n IH]; intros d w Hw;
    cbn [retryWithBackoff]; unfold try_catch;
    destruct (Hfn w Hw) as [E1 I1]; destruct (fn w) as [r w1];
    simpl in E1, I1; subst r.
  - simpl. auto.
  - destruct (retry_signal e).
    + unfold bind, sleep. apply IH, HI, I1.
    + simpl. auto.
Qed.

Lemma v1_attempt_fails (w : World) e b m :
  (forall n req, svc w n req = RThrow e) ->
  forall w', svc w' = svc w /\ heap w' = heap w ->
  fst (GeminiV1.attempt b m w') = Thrown e /\
  (svc (snd (GeminiV1.attempt b m w')) = svc w /\
   heap (snd (GeminiV1.attempt b m w')) = heap w).
Proof.
  intros He w' [Hs Hh].
  unfold GeminiV1.attempt, try_catch, bind, generateContent.
  rewrite Hs, He. cbn [fst snd svc heap].
  destruct (GeminiV1.fallback_signal e); cbn [fst snd svc heap];
    [rewrite He|]; cbn; auto.
Qed.

Lemma v3_attempt_fails (w : World) e b m :
  (forall n req, svc w n req = RThrow e) ->
  forall w', svc w' = svc w /\ heap w' = heap w ->
  fst (GeminiV3.attempt b m w') = Thrown e /\
  (svc (snd (GeminiV3.attempt b m w')) = svc w /\
   heap (snd (GeminiV3.attempt b m w')) = heap w).
Proof.
  intros He w' [Hs Hh].
  unfold GeminiV3.attempt, try_catch, bind, generateContent.
  rewrite Hs, He. cbn [fst snd svc heap].
  destruct (GeminiV1.fallback_signal e); cbn [fst snd svc heap];
    [rewrite He|]; cbn; auto.
Qed.

Lemma v3_recalc_attempt_fails (w : World) e prompt :
  (forall n req, svc w n req = RThrow e) ->
  forall w', svc w' = svc w /\ heap w' = heap w ->
  fst (GeminiV3.recalc_attempt prompt w') = Thrown e /\
  (svc (snd (GeminiV3.recalc_attempt prompt w')) = svc w /\
   heap (snd (GeminiV3.recalc_attempt prompt w')) = heap w).
Proof.
  intros He w' [Hs Hh].
  unfold GeminiV3.recalc_attempt, try_catch, bind, generateContent.
  rewrite Hs, He. cbn [fst snd svc heap].
  destruct (GeminiV3.recalc_fallback_signal e); cbn [fst snd svc heap];
    [rewrite He|]; cbn; auto.
Qed.

Lemma v3_text_attempt_fails (w : World) e text :
  (forall n req, svc w n req = RThrow e) ->
  forall w', svc w' = svc w /\ heap w' = heap w ->
  fst (GeminiV3.text_attempt text w') = Thrown e /\
  (svc (snd (GeminiV3.text_attempt text w')) = svc w /\
   heap (snd (GeminiV3.text_attempt text w')) = heap w).
Proof.
  intros He w' [Hs Hh].
  unfold GeminiV3.text_attempt, bind, generateContent.
  rewrite Hs, He. cbn. auto.
Qed.

Lemma v1_recalc_attempt_fails (w : World) e JSON_stringify l corr cur :
  (forall n req, svc w n req = RThrow e) ->
  nth_error (heap w) l = Some cur ->
  forall w', svc w' = svc w /\ heap w' = heap w ->
  fst (GeminiV1.recalc_attempt JSON_stringify l corr w') =
    Thrown (new_Error (message_or e "Recalculation failed")) /\
  (svc (snd (GeminiV1.recalc_attempt JSON_stringify l corr w')) = svc w /\
   heap (snd (GeminiV1.recalc_attempt JSON_stringify l corr w')) = heap w).
Proof.
  intros He Hl w' [Hs Hh].
  unfold GeminiV1.recalc_attempt, try_catch, bind, generateContent, load.
  rewrite Hh, Hl. cbv zeta. rewrite Hs, He. cbn [fst snd svc heap].
  rewrite rethrow_as_Error_throw. cbn. auto.
Qed.

Lemma with_log_same_backend (w : World) :
  forall w' l, svc w' = svc w /\ heap w' = heap w ->
  svc (with_log w' l) = svc w /\ heap (with_log w' l) = heap w.
Proof. intros w' l H. exact H. Qed.

(** When every call of the service rejects with the same error [e] (an
    API key being set), each service function rejects with [e] itself,
    whatever retries and fallbacks ran in between; the first version's
    [recalculateMacros] rejects with [new Error(e.message ||
    "Recalculation failed")] instead, which drops the status. *)
Theorem services_fail_with_last_error (JSON_stringify : AnalysisResult -> string)
  (b m text corr : string) (l : loc) (w : World) (e : JsErr) (k : string)
  (cur : AnalysisResult) :
  API_KEY w = Some k -> String.eqb k EmptyString = false ->
  (forall n req, svc w n req = RThrow e) ->
  nth_error (heap w) l = Some cur ->
  fst (GeminiV1.analyzeFoodImage b m w) = Thrown e /\
  fst (GeminiV1.recalculateMacros JSON_stringify l corr w) =
    Thrown (new_Error (message_or e "Recalculation failed")) /\
  fst (GeminiV3.analyzeFoodImage b m w) = Thrown e /\
  fst (GeminiV3.recalculateMacros JSON_stringify l corr w) = Thrown e /\
  fst (GeminiV3.analyzeFoodText text w) = Thrown e.
Proof.
  intros Hk Hk' He Hl.
  assert (W : svc w = svc w /\ heap w = heap w) by auto.
  repeat split;
    unfold GeminiV1.analyzeFoodImage, GeminiV1.recalculateMacros,
      GeminiV3.analyzeFoodImage, GeminiV3.recalculateMacros,
      GeminiV3.analyzeFoodText;
    unfold bind at 1, apiKey_missing; rewrite Hk, Hk';
    unfold retryWithBackoff_default.
  - exact (proj1 (retry_always_throws _ _ _ (with_log_same_backend w)
             (v1_attempt_fails w e b m He) 3 1000 w W)).
  - exact (proj1 (retry_always_throws _ _ _ (with_log_same_backend w)
             (v1_recalc_attempt_fails w e JSON_stringify l corr cur He Hl)
             3 1000 w W)).
  - exact (proj1 (retry_always_throws _ _ _ (with_log_same_backend w)
             (v3_attempt_fails w e b m He) 3 1000 w W)).
  - unfold bind, load. rewrite Hl. cbv zeta.
    exact (proj1 (retry_always_throws _ _ _ (with_log_same_backend w)
             (v3_recalc_attempt_fails w e _ He) 3 1000 w W)).
  - exact (proj1 (retry_always_throws _ _ _ (with_log_same_backend w)
             (v3_text_attempt_fails w e text He) 3 1000 w W)).
Qed.

Lemma services_fail_with_last_error_witness :
  fst (GeminiV3.analyzeFoodImage "AAAA" "image/jpeg" (stored_with err_429))
  = Thrown err_429.
Proof.
  destruct (services_fail_with_last_error (fun _ => EmptyString) "AAAA"
              "image/jpeg" "хлеб" "убери хлеб" 0 (stored_with err_429) err_429
              "key" (result_bread (8 # 10)))
    as (_ & _ & H & _); [reflexivity|reflexivity|reflexivity|reflexivity|exact H].
Defined.

(** ** What the [BACKEND_SPEC.md] app shows for an error *)

(** Without an API key, every service of the third version rejects with
    an error that [getUserFriendlyError] of the [BACKEND_SPEC.md] app
    turns into the configuration message: the lowered message contains
    "api key", and no earlier keyword. *)
Theorem missing_key_shows_config_message (w : World)
  (JSON_stringify : AnalysisResult -> string) (b mt corr text : string)
  (l : loc) :
  API_KEY w = None \/ API_KEY w = Some EmptyString ->
  (forall f : M loc,
     f = GeminiV3.analyzeFoodImage b mt \/
     f = GeminiV3.recalculateMacros JSON_stringify l corr \/
     f = GeminiV3.analyzeFoodText text ->
     exists e, fst (f w) = Thrown e /\
       BackendApp.getUserFriendlyError e = BackendApp.msg_config).
Proof.
  intros Hk f Hf.
  destruct Hf as [Hf|[Hf|Hf]]; subst f;
    unfold GeminiV3.analyzeFoodImage, GeminiV3.recalculateMacros,
      GeminiV3.analyzeFoodText, bind, apiKey_missing;
    destruct Hk as [Hk|Hk]; rewrite Hk; eexists; split; reflexivity.
Qed.

Lemma missing_key_shows_config_message_witness :
  exists e, fst (GeminiV3.analyzeFoodText "хлеб" w_no_key) = Thrown e /\
    BackendApp.getUserFriendlyError e = BackendApp.msg_config.
Proof.
  apply (missing_key_shows_config_message w_no_key (fun _ => EmptyString)
           "AAAA" "image/jpeg" "убери хлеб" "хлеб" 0 (or_introl eq_refl)).
  right. right. reflexivity.
Defined.

(** [getUserFriendlyError] reads the message only, never the status: two
    errors with the same message get the same text, and an error with no
    message gets the default text, even with a status of 429 or 503 that
    [retryWithBackoff] treats as rate limiting or overload. *)
Theorem getUserFriendlyError_ignores_status (e : JsErr) (st : option Z) :
  BackendApp.getUserFriendlyError e =
    BackendApp.getUserFriendlyError (mkJsErr st (message e)) /\
  (message e = None -> BackendApp.getUserFriendlyError e = BackendApp.msg_default).
Proof.
  split; [reflexivity|]. intros H. unfold BackendApp.getUserFriendlyError.
  rewrite H. reflexivity.
Qed.

(** ** [resizeImage]: the dimensions *)

Lemma js_round_div_spec p q :
  (0 < q)%Z ->
  (2 * q * BackendApp.js_round_div p q <= 2 * p + q <
   2 * q * BackendApp.js_round_div p q + 2 * q)%Z.
Proof.
  intros Hq. unfold BackendApp.js_round_div.
  pose proof (Z.div_mod (2 * p + q) (2 * q) ltac:(lia)) as D.
  pose proof (Z.mod_pos_bound (2 * p + q) (2 * q) ltac:(lia)) as B.
  lia.
Qed.

Ltac resize_cases w h :=
  unfold BackendApp.resize_dims, BackendApp.maxDim;
  destruct (Z.ltb_spec 1024 w), (Z.ltb_spec 1024 h); cbn [orb];
  try destruct (Z.ltb_spec h w); cbn [fst snd];
  repeat match goal with
         | |- context [BackendApp.js_round_div ?p ?q] =>
             let H := fresh "R" in
             pose proof (js_round_div_spec p q ltac:(lia)) as H;
             set (BackendApp.js_round_div p q) in *
         end.

(** For a nonnegative width and height, the canvas of [resizeImage] has
    both sides between 0 and 1024; an image within 1024 x 1024 keeps its
    size, and a larger one gets exactly 1024 on its longer side, the other
    side being at most that (when both sides are equal the code takes the
    second branch: the height is set to 1024). *)
Theorem resize_dims_bounds (width height : Z) :
  (0 <= width)%Z -> (0 <= height)%Z ->
  (0 <= fst (BackendApp.resize_dims width height) <= 1024)%Z /\
  (0 <= snd (BackendApp.resize_dims width height) <= 1024)%Z /\
  ((width <= 1024)%Z -> (height <= 1024)%Z ->
   BackendApp.resize_dims width height = (width, height)) /\
  ((1024 < width)%Z \/ (1024 < height)%Z ->
   ((height < width)%Z ->
    fst (BackendApp.resize_dims width height) = 1024%Z /\
    (snd (BackendApp.resize_dims width height) <=
     fst (BackendApp.resize_dims width height))%Z) /\
   ((width <= height)%Z ->
    snd (BackendApp.resize_dims width height) = 1024%Z /\
    (fst (BackendApp.resize_dims width height) <=
     snd (BackendApp.resize_dims width height))%Z)).
Proof.
  intros Hw Hh. resize_cases width height; repeat split; intros; try lia; nia.
Qed.

Lemma resize_dims_bounds_witness :
  BackendApp.resize_dims 4000 3000 = (1024%Z, 768%Z) /\
  fst (BackendApp.resize_dims 4000 3000) = 1024%Z /\
  (snd (BackendApp.resize_dims 4000 3000) <=
   fst (BackendApp.resize_dims 4000 3000))%Z.
Proof.
  split; [reflexivity|].
  apply (resize_dims_bounds 4000 3000); lia.
Defined.

(** When [resizeImage] scales an image down, the rounding of the shorter
    side keeps the aspect ratio up to half a pixel:
    [|new_w * height - new_h * width| <= max(width, height) / 2]. *)
Theorem resize_dims_aspect (width height : Z) :
  (0 < width)%Z -> (0 < height)%Z ->
  (1024 < width)%Z \/ (1024 < height)%Z ->
  (2 * Z.abs (fst (BackendApp.resize_dims width height) * height -
              snd (BackendApp.resize_dims width height) * width)
   <= Z.max width height)%Z.
Proof. intros Hw Hh Hbig. resize_cases width height; lia. Qed.

Lemma resize_dims_aspect_witness :
  (2 * Z.abs (fst (BackendApp.resize_dims 1000 3001) * 3001 -
              snd (BackendApp.resize_dims 1000 3001) * 1000)
   <= Z.max 1000 3001)%Z.
Proof. apply resize_dims_aspect; lia. Defined.

(** The rounding can give a side of 0: a scaled-down image gets a height
    of 0 exactly when its width is more than 2048 times its height, and a
    width of 0 exactly when its height is more than 2048 times its width;
    [resizeImage] draws on such a canvas all the same. *)
Theorem resize_dims_zero_side (width height : Z) :
  (0 <= width)%Z -> (0 <= height)%Z ->
  (1024 < width)%Z \/ (1024 < height)%Z ->
  (snd (BackendApp.resize_dims width height) = 0%Z <-> (2048 * height < width)%Z) /\
  (fst (BackendApp.resize_dims width height) = 0%Z <-> (2048 * width < height)%Z).
Proof.
  intros Hw Hh Hbig. resize_cases width height; repeat split; intros; try lia; nia.
Qed.

Lemma resize_dims_zero_side_witness :
  BackendApp.resize_dims 3000 1 = (1024%Z, 0%Z) /\
  (snd (BackendApp.resize_dims 3000 1) = 0%Z <-> (2048 * 1 < 3000)%Z).
Proof.
  split; [reflexivity|].
  apply (proj1 (resize_dims_zero_side 3000 1 ltac:(lia) ltac:(lia)
                  (or_introl (ltac:(lia) : (1024 < 3000)%Z)))).
Defined.

(** ** The handlers of the [BACKEND_SPEC.md] app *)

(** [handleImageSelect] of [BACKEND_SPEC.md]: a failed [resizeImage]
    calls no service and shows ERROR with the friendly text and the raw
    error, keeping the previous image; otherwise the compressed JPEG is
    shown and sent once as "image/jpeg", and a failed analysis shows
    ERROR with the friendly text of that error and its raw message. *)
Theorem backend_handleImageSelect_outcome
  (JSON_stringify_error : JsErr -> string)
  (resizeImage : File -> Res string)
  (analyze : option string -> string -> Res AnalysisResult)
  (file : File) (s : BackendApp.SessionState) :
  let r := BackendApp.handleImageSelect JSON_stringify_error resizeImage
             analyze file s in
  match resizeImage file with
  | Thrown e =>
      fst r = [] /\ BackendApp.appState (snd r) = ERROR /\
      BackendApp.selectedImage (snd r) = BackendApp.selectedImage s /\
      BackendApp.errorMessage (snd r) = Some (BackendApp.getUserFriendlyError e) /\
      BackendApp.rawError (snd r) = Some (BackendApp.raw_of JSON_stringify_error e)
  | Ok d =>
      let base64Data := nth_error (split_comma d) 1 in
      fst r = [CallAnalyzeFoodImage base64Data "image/jpeg"%string] /\
      BackendApp.selectedImage (snd r) = Some d /\
      match analyze base64Data "image/jpeg"%string with
      | Ok res =>
          BackendApp.appState (snd r) = RESULT_VIEW /\
          BackendApp.analysisResult (snd r) = Some res /\
          BackendApp.errorMessage (snd r) = None /\
          BackendApp.rawError (snd r) = None
      | Thrown e =>
          BackendApp.appState (snd r) = ERROR /\
          BackendApp.errorMessage (snd r) =
            Some (BackendApp.getUserFriendlyError e) /\
          BackendApp.rawError (snd r) =
            Some (BackendApp.raw_of JSON_stringify_error e)
      end
  end.
Proof.
  intros r. subst r. unfold BackendApp.handleImageSelect.
  destruct (resizeImage file) as [d|e]; [|repeat split].
  cbv zeta. destruct (analyze (nth_error (split_comma d) 1) "image/jpeg"%string);
    repeat split.
Qed.

(** [handleCorrectionSubmit] of [BACKEND_SPEC.md] sends the trimmed
    correction.  A success shows the new result, empties the text and
    clears both error fields; a failure keeps the result and the typed
    text and shows the friendly text and the raw error. *)
Theorem backend_handleCorrectionSubmit_outcome
  (JSON_stringify_error : JsErr -> string)
  (recalc : AnalysisResult -> string -> Res AnalysisResult)
  (s : BackendApp.SessionState) (cur : AnalysisResult) :
  BackendApp.analysisResult s = Some cur ->
  String.eqb (trim (BackendApp.correctionText s)) EmptyString = false ->
  let r := BackendApp.handleCorrectionSubmit JSON_stringify_error recalc s in
  let text := trim (BackendApp.correctionText s) in
  fst r = [CallRecalculateMacros cur text] /\
  BackendApp.appState (snd r) = RESULT_VIEW /\
  match recalc cur text with
  | Ok res =>
      BackendApp.analysisResult (snd r) = Some res /\
      BackendApp.correctionText (snd r) = EmptyString /\
      BackendApp.errorMessage (snd r) = None /\
      BackendApp.rawError (snd r) = None
  | Thrown e =>
      BackendApp.analysisResult (snd r) = Some cur /\
      BackendApp.correctionText (snd r) = BackendApp.correctionText s /\
      BackendApp.errorMessage (snd r) = Some (BackendApp.getUserFriendlyError e) /\
      BackendApp.rawError (snd r) = Some (BackendApp.raw_of JSON_stringify_error e)
  end.
Proof.
  intros Hr Ht r text. subst r text. unfold BackendApp.handleCorrectionSubmit.
  cbv zeta. rewrite Ht, Hr.
  destruct (recalc cur (trim (BackendApp.correctionText s))); repeat split; exact Hr.
Qed.

Lemma backend_handleCorrectionSubmit_outcome_witness :
  fst (BackendApp.handleCorrectionSubmit (fun _ => EmptyString)
         (fun _ _ => Thrown err_429) backend_session) =
    [CallRecalculateMacros (result_bread (8 # 10)) "убери хлеб"%string].
Proof.
  destruct (backend_handleCorrectionSubmit_outcome (fun _ => EmptyString)
              (fun _ _ => Thrown err_429) backend_session (result_bread (8 # 10)))
    as (H & _); [reflexivity|vm_compute; reflexivity|].
  rewrite H. vm_compute. reflexivity.
Defined.

(** [handleAudioCorrection] of [BACKEND_SPEC.md]: it always comes back to
    RESULT_VIEW with the result untouched; a transcription replaces the
    correction text and leaves no error, a failure keeps the text and
    shows the friendly text and the raw error. *)
Theorem backend_handleAudioCorrection_outcome {Blob : Type}
  (JSON_stringify_error : JsErr -> string) (tr : Blob -> Res string)
  (blob : Blob) (s : BackendApp.SessionState) :
  let s' := BackendApp.handleAudioCorrection JSON_stringify_error tr blob s in
  BackendApp.appState s' = RESULT_VIEW /\
  BackendApp.analysisResult s' = BackendApp.analysisResult s /\
  match tr blob with
  | Ok t =>
      BackendApp.correctionText s' = t /\
      BackendApp.errorMessage s' = None /\ BackendApp.rawError s' = None
  | Thrown e =>
      BackendApp.correctionText s' = BackendApp.correctionText s /\
      BackendApp.errorMessage s' = Some (BackendApp.getUserFriendlyError e) /\
      BackendApp.rawError s' = Some (BackendApp.raw_of JSON_stringify_error e)
  end.
Proof.
  intros s'. subst s'. unfold BackendApp.handleAudioCorrection.
  destruct (tr blob); repeat split.
Qed.

(** [handleAudioCorrection] of [App.tsx]: it always comes back to
    RESULT_VIEW with the result untouched.  A transcription replaces the
    correction text and leaves [errorMessage] as it was (a banner of an
    earlier failure stays); a failure keeps the text and shows the fixed
    speech message. *)
Theorem handleAudioCorrection_outcome {Blob : Type}
  (tr : Blob -> Res string) (blob : Blob) (s : SessionState) :
  let s' := handleAudioCorrection tr blob s in
  appState s' = RESULT_VIEW /\
  analysisResult s' = analysisResult s /\
  match tr blob with
  | Ok t => correctionText s' = t /\ errorMessage s' = errorMessage s
  | Thrown _ =>
      correctionText s' = correctionText s /\
      errorMessage s' = Some msg_speech_failed
  end.
Proof.
  intros s'. subst s'. unfold handleAudioCorrection.
  destruct (tr blob); repeat split.
Qed.

(** ** The fourth version's [analyzeFoodImage] *)

(** The fourth version's [analyzeFoodImage] makes at most one call and
    never waits: no retry and no fallback.  Every error it rejects with
    is a plain [Error] with no status, and a success returns the object
    parsed from the reply of that call. *)
Theorem v4_analyzeFoodImage_single_call (b m : string) :
  calls_at_most 1 (GeminiV4.analyzeFoodImage b m) /\
  (forall w e, fst (GeminiV4.analyzeFoodImage b m w) = Thrown e ->
               status e = None) /\
  ok_post result_is_last_payload (GeminiV4.analyzeFoodImage b m).
Proof.
  split; [|split].
  - unfold GeminiV4.analyzeFoodImage. cam_bound.
  - intros w e. unfold GeminiV4.analyzeFoodImage, bind at 1, apiKey_missing.
    destruct (match API_KEY w with
              | Some k => String.eqb k EmptyString
              | None => true
              end).
    + intros H. inversion H. reflexivity.
    + unfold try_catch.
      destruct ((text <- generateContent
                   (mkRequest GeminiV1.proModel (GeminiV4.contentPart b m)
                      GeminiV1.configPart) ;;
                 parse_text text "No response from Gemini"%string) w)
        as [[a|e'] w1].
      * intros H. discriminate.
      * rewrite rethrow_as_Error_throw. intros H. inversion H. reflexivity.
  - unfold GeminiV4.analyzeFoodImage. apply ok_post_bind. intros [|].
    + apply ok_post_throw.
    + apply ok_post_try_catch; [apply call_parse_payload|].
      intros e. apply ok_post_rethrow.
Qed.
